(** * projecttile: WMTS tile utilities

    A shallow embedding of [projecttile/__init__.py] and the properties of
    its tile algebra.

    Numbers.  A Python number is an [int] or a [float].  Ints are [Z].
    In the main embedding floats are idealised as exact rationals ([Q]):
    the general statements are about exact arithmetic, which neither
    rounds nor leaves the range of the floats.  The int/float distinction
    itself is kept, because the code depends on it ([range] refuses a
    float, [2 ** z] is a float for a negative [z]).

    The program itself computes in IEEE binary64.  Module [Binary64]
    embeds the same functions on primitive floats, which round as Python's
    do, with the errors Python raises at the ends of their range; it
    serves to run the code on concrete inputs, where rounding or the range
    decides the outcome, and for the statements that hold whatever the
    arithmetic.

    Errors.  Functions that can raise return an [outcome]; the generator
    [tiles] returns the list of tiles it yields together with the exception
    that ends the iteration, if any. *)

From Stdlib Require Import ZArith QArith Qround Qpower List Sorted Bool Lia Lqa.
From Stdlib Require Import PrimFloat FloatOps SpecFloat Uint63.
Import ListNotations.

Local Open Scope Z_scope.

(** ** Numbers *)

Inductive number : Type :=
| Int (z : Z)
| Float (q : Q).

(** The mathematical value of a number. *)
Definition toQ (n : number) : Q :=
  match n with
  | Int z => inject_Z z
  | Float q => q
  end.

(** ** Exceptions and outcomes *)

(** [TileArgParsingError] is the module's own exception; the others are
    Python's.  [OutsideModel] is not an exception: it marks an evaluation
    the model does not follow ([2.0 ** zoom] for a float [zoom]; in
    [Binary64], values beyond the range of ordinary tile arithmetic). *)
Inductive exn : Type :=
| TileArgParsingError
| TypeError
| ValueError
| ZeroDivisionError
| OverflowError
| UnboundLocalError
| OutsideModel.

Inductive outcome (A : Type) : Type :=
| Return (a : A)
| Raise (e : exn).

Arguments Return {A} a.
Arguments Raise {A} e.

Definition bind {A B : Type} (o : outcome A) (k : A -> outcome B) : outcome B :=
  match o with
  | Return a => k a
  | Raise e => Raise e
  end.

Declare Scope py_scope.
Delimit Scope py_scope with py.
Notation "x <- c ;; k" := (bind c (fun x => k))
  (at level 61, c at next level, right associativity) : py_scope.
Notation "' pat <- c ;; k" := (bind c (fun x => match x with pat => k end))
  (at level 61, pat pattern, c at next level, right associativity) : py_scope.
Local Open Scope py_scope.

(** ** Arithmetic on numbers *)

(** [a + b], [a - b], [a * b]: an int when both operands are ints.  With a
    float operand the result is the exact value: no rounding, and no
    [OverflowError] for an int operand beyond the range of the floats
    ([Binary64.of_int] has it). *)
Definition add (a b : number) : number :=
  match a, b with
  | Int x, Int y => Int (x + y)
  | _, _ => Float (toQ a + toQ b)
  end.

Definition sub (a b : number) : number :=
  match a, b with
  | Int x, Int y => Int (x - y)
  | _, _ => Float (toQ a - toQ b)
  end.

Definition mul (a b : number) : number :=
  match a, b with
  | Int x, Int y => Int (x * y)
  | _, _ => Float (toQ a * toQ b)
  end.

(** [a / b]: always a float; a zero divisor raises. *)
Definition truediv (a b : number) : outcome number :=
  if Qeq_bool (toQ b) 0 then Raise ZeroDivisionError
  else Return (Float (toQ a / toQ b)).

(** [a % b]: the remainder of the floored division. *)
Definition mod_ (a b : number) : outcome number :=
  if Qeq_bool (toQ b) 0 then Raise ZeroDivisionError
  else match a, b with
       | Int x, Int y => Return (Int (x mod y))
       | _, _ =>
           Return (Float (toQ a - toQ b * inject_Z (Qfloor (toQ a / toQ b))))
       end.

(** [a < b] and [a > b]; Python compares an int with a float exactly. *)
Definition lt (a b : number) : bool := negb (Qle_bool (toQ b) (toQ a)).
Definition gt (a b : number) : bool := lt b a.

(** [max(a, b)] and [min(a, b)] return their first argument unless the
    second is strictly greater (smaller). *)
Definition py_max (a b : number) : number := if gt b a then b else a.
Definition py_min (a b : number) : number := if lt b a then b else a.

(** [int(math.floor(x))]. *)
Definition floor (a : number) : Z := Qfloor (toQ a).

(** [2.0 ** zoom] for an int [zoom]: a float, here the exact power for
    every [zoom].  In binary64 the power overflows from [zoom = 1024]
    ([OverflowError]) and is [0.0] below [zoom = -1074]
    ([Binary64.pow2f]). *)
Definition pow2f (zoom : Z) : number := Float (Qpower 2 zoom).

(** [2 ** z] for an int [z]: an int, but a float when [z] is negative. *)
Definition pow2i (z : Z) : number :=
  if 0 <=? z then Int (2 ^ z) else Float (Qpower 2 z).

(** [range(lo, hi)] on ints. *)
Definition range (lo hi : Z) : list Z :=
  map (fun k => lo + Z.of_nat k) (seq 0 (Z.to_nat (hi - lo))).

(** [range(lo, hi)] when [hi] comes out of [min]: a float is refused. *)
Definition py_range (lo : Z) (hi : number) : outcome (list Z) :=
  match hi with
  | Int h => Return (range lo h)
  | Float _ => Raise TypeError
  end.

(** ** Python objects passed as [*tile] *)

(** What the variadic functions look at: a number, or a sequence (tuple,
    list, namedtuple) of objects. *)
#[warnings="-register-all"]
Inductive pyobj : Type :=
| PyNum (n : number)
| PySeq (l : list pyobj).

(** [len(o)]: a number has no length. *)
Definition len (o : pyobj) : outcome nat :=
  match o with
  | PyNum _ => Raise TypeError
  | PySeq l => Return (length l)
  end.

(** [a, b, c, d = o], the four names bound in [k]. *)
Definition unpack4 {B : Type} (o : pyobj)
  (k : pyobj -> pyobj -> pyobj -> pyobj -> outcome B) : outcome B :=
  match o with
  | PyNum _ => Raise TypeError
  | PySeq [a; b; c; d] => k a b c d
  | PySeq _ => Raise ValueError
  end.

(** Binary operators on objects, as [ul] and [bounds] use them: the other
    operand is a number there, so a sequence operand is a [TypeError]. *)
Definition py_binop (op : number -> number -> number) (a b : pyobj)
  : outcome number :=
  match a, b with
  | PyNum m, PyNum n => Return (op m n)
  | _, _ => Raise TypeError
  end.

Definition py_add := py_binop add.
Definition py_sub := py_binop sub.
Definition py_mul := py_binop mul.

(** [2.0 ** zoom] on an object: the exact power, as [pow2f]. *)
Definition py_pow2f (zoom : pyobj) : outcome number :=
  match zoom with
  | PyNum (Int z) => Return (pow2f z)
  | PyNum (Float _) => Raise OutsideModel
  | PySeq _ => Raise TypeError
  end.

(** ** The namedtuples *)

(** [Bbox(left, bottom, right, top)]. *)
Record Bbox : Type := mkBbox {
  bb_left : number;
  bb_bottom : number;
  bb_right : number;
  bb_top : number
}.

(** [XY(x, y)]. *)
Record XY : Type := mkXY {
  xy_x : number;
  xy_y : number
}.

(** [WMTSTile(x, y, z, provider_bounds)]: the constructor checks nothing,
    so the fields are objects. *)
Record WMTSTile : Type := mkWMTSTile {
  t_x : pyobj;
  t_y : pyobj;
  t_z : pyobj;
  t_provider_bounds : pyobj
}.

(** A namedtuple is a tuple. *)
Definition of_bbox (b : Bbox) : pyobj :=
  PySeq [PyNum (bb_left b); PyNum (bb_bottom b);
         PyNum (bb_right b); PyNum (bb_top b)].

Definition of_tile (t : WMTSTile) : pyobj :=
  PySeq [t_x t; t_y t; t_z t; t_provider_bounds t].

(** The tile with int indices [x], [y], zoom [z] and bounds [b]. *)
Definition Tile (x y z : Z) (b : Bbox) : WMTSTile :=
  mkWMTSTile (PyNum (Int x)) (PyNum (Int y)) (PyNum (Int z)) (of_bbox b).

(** ** [_parse_tile_arg] *)

(** The namedtuple constructor applied to the unpacked [args]: it takes
    four arguments. *)
Definition WMTSTile_star (args : pyobj) : outcome WMTSTile :=
  match args with
  | PySeq [a; b; c; d] => Return (mkWMTSTile a b c d)
  | _ => Raise TypeError
  end.

Definition _parse_tile_arg (args : list pyobj) : outcome WMTSTile :=
  let args := match args with
              | [a] => a
              | _ => PySeq args
              end in
  n <- len args ;;
  if Nat.eqb n 4 then WMTSTile_star args
  else Raise TileArgParsingError.

(** ** [ul] *)

Definition ul (tile : list pyobj) : outcome XY :=
  tile <- _parse_tile_arg tile ;;
  let '(mkWMTSTile xtile ytile zoom provider_bounds) := tile in
  unpack4 provider_bounds (fun left bottom right top =>
  n <- py_pow2f zoom ;;
  dx <- py_sub right left ;;
  tile_dx <- truediv dx n ;;
  dy <- py_sub top bottom ;;
  tile_dy <- truediv dy n ;;
  mx <- py_mul xtile (PyNum tile_dx) ;;
  x <- py_add left (PyNum mx) ;;
  my <- py_mul ytile (PyNum tile_dy) ;;
  y <- py_sub top (PyNum my) ;;
  Return (mkXY x y)).

(** ** [truncate_xy] *)

Definition truncate_xy (x y : number) (provider_bounds : Bbox)
  : number * number :=
  let left := bb_left provider_bounds in
  let bottom := bb_bottom provider_bounds in
  let right := bb_right provider_bounds in
  let top := bb_top provider_bounds in
  let x := if gt x right then right
           else if lt x left then left else x in
  let y := if gt y top then top
           else if lt y bottom then bottom else y in
  (x, y).

(** ** [bounds] *)

Definition bounds (tile : list pyobj) : outcome Bbox :=
  tile <- _parse_tile_arg tile ;;
  let '(mkWMTSTile xtile ytile zoom provider_bounds) := tile in
  a <- ul [xtile; ytile; zoom; provider_bounds] ;;
  x1 <- py_add xtile (PyNum (Int 1)) ;;
  y1 <- py_add ytile (PyNum (Int 1)) ;;
  b <- ul [PyNum x1; PyNum y1; zoom; provider_bounds] ;;
  Return (mkBbox (xy_x a) (xy_y b) (xy_x b) (xy_y a)).

(** ** [_tile] and [tile] *)

Definition _tile (x y : number) (zoom : Z) (provider_bounds : Bbox)
  (truncate : bool) : outcome (number * number * Z) :=
  let left := bb_left provider_bounds in
  let bottom := bb_bottom provider_bounds in
  let right := bb_right provider_bounds in
  let top := bb_top provider_bounds in
  let n := pow2f zoom in
  tile_dx <- truediv (sub right left) n ;;
  tile_dy <- truediv (sub top bottom) n ;;
  xtile <- truediv (sub x left) tile_dx ;;
  ytile <- truediv (sub top y) tile_dy ;;
  Return (xtile, ytile, zoom).

Definition tile (x y : number) (zoom : Z) (provider_bounds : Bbox)
  (truncate : bool) : outcome WMTSTile :=
  '(xtile, ytile, zoom) <- _tile x y zoom provider_bounds truncate ;;
  let xtile := floor xtile in
  let ytile := floor ytile in
  Return (Tile xtile ytile zoom provider_bounds).

(** ** [tiles] *)

(** What iterating a generator gives: the values yielded, in order, and
    the exception that ended the iteration ([None] when it ran to its
    end). *)
Definition trace (T : Type) : Type := (list T * option exn)%type.

(** A statement that may raise, followed by the rest of the generator. *)
Definition then_ {A T : Type} (o : outcome A) (k : A -> trace T) : trace T :=
  match o with
  | Return a => k a
  | Raise e => ([], Some e)
  end.

(** [for a in l: body], where [body] yields and may raise. *)
Fixpoint for_ {A T : Type} (l : list A) (body : A -> trace T) : trace T :=
  match l with
  | [] => ([], None)
  | a :: l' =>
      match body a with
      | (ys, None) => let '(zs, e) := for_ l' body in (ys ++ zs, e)
      | (ys, Some e) => (ys, Some e)
      end
  end.

(** [zooms]: one int or a sequence of ints. *)
Inductive zooms_arg : Type :=
| ZoomInt (z : Z)
| ZoomSeq (l : list Z).

Definition epsilon : number := Float (1 # 1000000000).

(** The body of [for z in zooms]. *)
Definition tiles_zoom (w s e n : number) (z : Z) (provider_bounds : Bbox)
  : trace WMTSTile :=
  then_ (_tile w s z provider_bounds false) (fun '(llx, lly, llz) =>
  then_ (mod_ lly (Int 1)) (fun lly_mod =>
  then_ (truediv epsilon (Int 10)) (fun eps10 =>
  let lly := if lt lly_mod eps10 then sub lly epsilon else lly in
  then_ (_tile e n z provider_bounds false) (fun '(urx, ury, urz) =>
  then_ (mod_ urx (Int 1)) (fun urx_mod =>
  then_ (truediv epsilon (Int 10)) (fun eps10 =>
  let urx := if lt urx_mod eps10 then sub urx epsilon else urx in
  let llx := if lt llx (Int 0) then Int 0 else llx in
  let ury := if lt ury (Int 0) then Int 0 else ury in
  let llx := floor llx in
  let urx := floor urx in
  let lly := floor lly in
  let ury := floor ury in
  then_ (py_range llx (py_min (Int (urx + 1)) (pow2i z))) (fun is_ =>
  for_ is_ (fun i =>
    then_ (py_range ury (py_min (Int (lly + 1)) (pow2i z))) (fun js =>
    for_ js (fun j =>
      ([Tile i j z provider_bounds], None))))))))))).

Definition tiles (west south east north : number) (zooms : zooms_arg)
  (provider_bounds : Bbox) (truncate : bool) : trace WMTSTile :=
  (* [bboxes] is bound on the [else] branch only *)
  let '(west, south, east, north, bboxes) :=
    if truncate then
      let '(west, south) := truncate_xy west south provider_bounds in
      let '(east, north) := truncate_xy east north provider_bounds in
      (west, south, east, north, None)
    else
      (west, south, east, north, Some [(west, south, east, north)]) in
  let left := bb_left provider_bounds in
  let bottom := bb_bottom provider_bounds in
  let right := bb_right provider_bounds in
  let top := bb_top provider_bounds in
  match bboxes with
  | None => ([], Some UnboundLocalError)
  | Some bboxes =>
      for_ bboxes (fun '(w, s, e, n) =>
        let w := py_max left w in
        let s := py_max bottom s in
        let e := py_min right e in
        let n := py_min top n in
        let zooms := match zooms with
                     | ZoomInt z => [z]
                     | ZoomSeq l => l
                     end in
        for_ zooms (fun z => tiles_zoom w s e n z provider_bounds))
  end.

(** ** The same functions in binary64 *)

(** The functions above on IEEE binary64 floats, for coordinates and
    bounds that are Python floats and tile indices and zooms that are
    ints, the tile arguments already parsed.  [+], [-], [*] and [/] on
    primitive floats round to nearest, ties to even, as Python's do. *)
Module Binary64.

Record Bbox : Type := mkBbox {
  bb_left : float;
  bb_bottom : float;
  bb_right : float;
  bb_top : float
}.

Record XY : Type := mkXY {
  xy_x : float;
  xy_y : float
}.

Record WMTSTile : Type := mkWMTSTile {
  t_x : Z;
  t_y : Z;
  t_z : Z;
  t_provider_bounds : Bbox
}.

(** An int where a float is expected: the conversion is exact below
    [2 ^ 53], and Python refuses an int of [2 ^ 1024] or more (int too
    large to convert to float).  In between the conversion rounds, which
    is not followed here. *)
Definition of_int (i : Z) : outcome float :=
  if Z.abs i <? 2 ^ 53 then
    Return (if i <? 0 then (- of_uint63 (Uint63.of_Z (- i)))%float
            else of_uint63 (Uint63.of_Z i))
  else if 2 ^ 1024 <=? Z.abs i then Raise OverflowError
  else Raise OutsideModel.

(** [2.0 ** zoom]: Python raises [OverflowError] when the power is out of
    range, from [zoom = 1024]; down to [zoom = -1074] the power is a float,
    and below that it underflows to [0.0].  The exponent is converted to
    a float first, exactly when it is above [- 2 ^ 53]. *)
Definition pow2f (zoom : Z) : outcome float :=
  if 1024 <=? zoom then Raise OverflowError
  else if - 2 ^ 53 <? zoom then Return (Z.ldexp 1 zoom)
  else Raise OutsideModel.

(** [a / b]. *)
Definition truediv (a b : float) : outcome float :=
  if (b =? 0)%float then Raise ZeroDivisionError
  else Return (a / b)%float.

(** [int(math.floor(a))] for a finite float [m * 2 ^ e]. *)
Definition floor (a : float) : outcome Z :=
  match Prim2SF a with
  | S754_zero _ => Return 0
  | S754_finite s m e =>
      let v := if s then Z.neg m else Z.pos m in
      Return (if 0 <=? e then v * 2 ^ e else v / 2 ^ (- e))
  | _ => Raise OutsideModel
  end.

(** [a % 1]: Python returns the remainder of the floored division,
    [a - floor(a)], rounded once; the subtraction below computes exactly
    that, the floor of a float below [2 ^ 53] being a float itself. *)
Definition mod1 (a : float) : outcome float :=
  k <- floor a ;;
  k <- of_int k ;;
  Return (a - k)%float.

Definition py_max (a b : float) : float := if (a <? b)%float then b else a.
Definition py_min (a b : float) : float := if (b <? a)%float then b else a.

Definition ul (xtile ytile zoom : Z) (provider_bounds : Bbox) : outcome XY :=
  let left := bb_left provider_bounds in
  let bottom := bb_bottom provider_bounds in
  let right := bb_right provider_bounds in
  let top := bb_top provider_bounds in
  n <- pow2f zoom ;;
  tile_dx <- truediv (right - left) n ;;
  tile_dy <- truediv (top - bottom) n ;;
  xtile <- of_int xtile ;;
  let x := (left + (xtile * tile_dx))%float in
  ytile <- of_int ytile ;;
  let y := (top - (ytile * tile_dy))%float in
  Return (mkXY x y).

Definition truncate_xy (x y : float) (provider_bounds : Bbox)
  : float * float :=
  let left := bb_left provider_bounds in
  let bottom := bb_bottom provider_bounds in
  let right := bb_right provider_bounds in
  let top := bb_top provider_bounds in
  let x := if (right <? x)%float then right
           else if (x <? left)%float then left else x in
  let y := if (top <? y)%float then top
           else if (y <? bottom)%float then bottom else y in
  (x, y).

Definition bounds (xtile ytile zoom : Z) (provider_bounds : Bbox)
  : outcome Bbox :=
  a <- ul xtile ytile zoom provider_bounds ;;
  b <- ul (xtile + 1) (ytile + 1) zoom provider_bounds ;;
  Return (mkBbox (xy_x a) (xy_y b) (xy_x b) (xy_y a)).

Definition _tile (x y : float) (zoom : Z) (provider_bounds : Bbox)
  (truncate : bool) : outcome (float * float * Z) :=
  let left := bb_left provider_bounds in
  let bottom := bb_bottom provider_bounds in
  let right := bb_right provider_bounds in
  let top := bb_top provider_bounds in
  n <- pow2f zoom ;;
  tile_dx <- truediv (right - left) n ;;
  tile_dy <- truediv (top - bottom) n ;;
  xtile <- truediv (x - left) tile_dx ;;
  ytile <- truediv (top - y) tile_dy ;;
  Return (xtile, ytile, zoom).

Definition tile (x y : float) (zoom : Z) (provider_bounds : Bbox)
  (truncate : bool) : outcome WMTSTile :=
  '(xtile, ytile, zoom) <- _tile x y zoom provider_bounds truncate ;;
  xtile <- floor xtile ;;
  ytile <- floor ytile ;;
  Return (mkWMTSTile xtile ytile zoom provider_bounds).

#[warnings="-inexact-float"]
Definition epsilon : float := 1.0e-9%float.

(** [2 ** z], an int when [z] is not negative. *)
Definition pow2i (z : Z) : outcome Z :=
  if 0 <=? z then Return (2 ^ z) else Raise OutsideModel.

(** The body of [for z in zooms]. *)
Definition tiles_zoom (w s e n : float) (z : Z) (provider_bounds : Bbox)
  : trace WMTSTile :=
  then_ (_tile w s z provider_bounds false) (fun '(llx, lly, llz) =>
  then_ (mod1 lly) (fun lly_mod =>
  then_ (truediv epsilon 10%float) (fun eps10 =>
  let lly := if (lly_mod <? eps10)%float then (lly - epsilon)%float
             else lly in
  then_ (_tile e n z provider_bounds false) (fun '(urx, ury, urz) =>
  then_ (mod1 urx) (fun urx_mod =>
  then_ (truediv epsilon 10%float) (fun eps10 =>
  let urx := if (urx_mod <? eps10)%float then (urx - epsilon)%float
             else urx in
  let llx := if (llx <? 0)%float then 0%float else llx in
  let ury := if (ury <? 0)%float then 0%float else ury in
  then_ (floor llx) (fun llx =>
  then_ (floor urx) (fun urx =>
  then_ (floor lly) (fun lly =>
  then_ (floor ury) (fun ury =>
  then_ (pow2i z) (fun n =>
  for_ (range llx (Z.min (urx + 1) n)) (fun i =>
    then_ (pow2i z) (fun n =>
    for_ (range ury (Z.min (lly + 1) n)) (fun j =>
      ([mkWMTSTile i j z provider_bounds], None))))))))))))))).

Definition tiles (west south east north : float) (zooms : zooms_arg)
  (provider_bounds : Bbox) (truncate : bool) : trace WMTSTile :=
  (* [bboxes] is bound on the [else] branch only *)
  let '(west, south, east, north, bboxes) :=
    if truncate then
      let '(west, south) := truncate_xy west south provider_bounds in
      let '(east, north) := truncate_xy east north provider_bounds in
      (west, south, east, north, None)
    else
      (west, south, east, north, Some [(west, south, east, north)]) in
  let left := bb_left provider_bounds in
  let bottom := bb_bottom provider_bounds in
  let right := bb_right provider_bounds in
  let top := bb_top provider_bounds in
  match bboxes with
  | None => ([], Some UnboundLocalError)
  | Some bboxes =>
      for_ bboxes (fun '(w, s, e, n) =>
        let w := py_max left w in
        let s := py_max bottom s in
        let e := py_min right e in
        let n := py_min top n in
        let zooms := match zooms with
                     | ZoomInt z => [z]
                     | ZoomSeq l => l
                     end in
        for_ zooms (fun z => tiles_zoom w s e n z provider_bounds))
  end.

(** The extent of the Web-Mercator pyramid, as Python reads the
    literals. *)
#[warnings="-inexact-float"]
Definition web_mercator : Bbox :=
  mkBbox (-20037508.342789244)%float (-20037508.342789244)%float
         20037508.342789244%float 20037508.342789244%float.

(** [Bbox(-100, -100, 100, 100)]: the ints convert to these floats
    exactly wherever the code computes with them. *)
Definition bbox100 : Bbox :=
  mkBbox (-100)%float (-100)%float 100%float 100%float.

End Binary64.

(** [bounds] and [tiles] are called on [Bbox(-100, -100, 100, 100)] in the
    examples. *)
Definition bbox100 : Bbox :=
  mkBbox (Int (-100)) (Int (-100)) (Int 100) (Int 100).

(** Provider bounds are well formed when [left < right] and
    [bottom < top]. *)
Definition well_formed (b : Bbox) : Prop :=
  (toQ (bb_left b) < toQ (bb_right b))%Q /\
  (toQ (bb_bottom b) < toQ (bb_top b))%Q.

(** ** Vocabulary of the statements *)

(** The formula for the corner, as the specification writes it. *)
Definition ul_formula (x y : Q) (z : Z) (left bottom right top : Q) : Q * Q :=
  (left + x * (right - left) / 2 ^ z, top - y * (top - bottom) / 2 ^ z)%Q.

(** The components the arguments resolve to: the elements of a lone
    sequence argument, and the arguments themselves when there are none or
    several.  A lone number has no components ([len] raises Python's own
    [TypeError] on it). *)
Definition resolve (args : list pyobj) : option (list pyobj) :=
  match args with
  | [PySeq l] => Some l
  | [PyNum _] => None
  | _ => Some args
  end.

(** The tiles of columns [is_] and rows [js], one column after the other. *)
Definition grid (z : Z) (b : Bbox) (is_ js : list Z) : list WMTSTile :=
  flat_map (fun i => map (fun j => Tile i j z b) js) is_.

(** The floor of an index after the boundary nudge: one less than the
    floor when the index is within [epsilon / 10] above an integer. *)
Definition snap (q : Q) : Z :=
  if Qle_bool (1 # 10000000000) (q - inject_Z (Qfloor q))
  then Qfloor q
  else Qfloor q - 1.

(** The fractional column and row index of a coordinate, as [_tile]
    computes them. *)
Definition xindex (z : Z) (b : Bbox) (x : number) : Q :=
  (toQ (sub x (bb_left b)) / (toQ (sub (bb_right b) (bb_left b)) / 2 ^ z))%Q.

Definition yindex (z : Z) (b : Bbox) (y : number) : Q :=
  (toQ (sub (bb_top b) y) / (toQ (sub (bb_top b) (bb_bottom b)) / 2 ^ z))%Q.

(** The width and the height of a tile at zoom [z], as [ul] and [_tile]
    compute them. *)
Definition tile_width (z : Z) (b : Bbox) : Q :=
  (toQ (sub (bb_right b) (bb_left b)) / 2 ^ z)%Q.

Definition tile_height (z : Z) (b : Bbox) : Q :=
  (toQ (sub (bb_top b) (bb_bottom b)) / 2 ^ z)%Q.

(** The zoom levels asked for. *)
Definition zoom_list (zooms : zooms_arg) : list Z :=
  match zooms with
  | ZoomInt z => [z]
  | ZoomSeq l => l
  end.

(** Row-major order within a zoom level: row by row, columns ascending
    within a row. *)
Inductive row_major_before : WMTSTile -> WMTSTile -> Prop :=
| rmb_row (x1 y1 x2 y2 z : Z) (b : Bbox) :
    y1 < y2 -> row_major_before (Tile x1 y1 z b) (Tile x2 y2 z b)
| rmb_column (x1 x2 y z : Z) (b : Bbox) :
    x1 < x2 -> row_major_before (Tile x1 y z b) (Tile x2 y z b).

(** Column-major order within a zoom level: column by column, rows
    ascending within a column. *)
Inductive column_major_before : WMTSTile -> WMTSTile -> Prop :=
| cmb_column (x1 y1 x2 y2 z : Z) (b : Bbox) :
    x1 < x2 -> column_major_before (Tile x1 y1 z b) (Tile x2 y2 z b)
| cmb_row (x y1 y2 z : Z) (b : Bbox) :
    y1 < y2 -> column_major_before (Tile x y1 z b) (Tile x y2 z b).

(** [out] is emitted zoom by zoom: it splits into consecutive blocks, one
    for each requested zoom in the order requested (as far as the
    iteration got); a block holds tiles of its zoom only, each before
    the next in the order [before]. *)
Definition zoom_by_zoom (before : WMTSTile -> WMTSTile -> Prop)
  (zs : list Z) (out : list WMTSTile) : Prop :=
  exists blocks : list (list WMTSTile),
    out = concat blocks /\
    Forall2
      (fun z blk =>
         Forall (fun t => t_z t = PyNum (Int z)) blk /\
         StronglySorted before blk)
      (firstn (length blocks) zs) blocks.

(** * Properties *)

(** ** Numbers *)

Lemma toQ_add a b : (toQ (add a b) == toQ a + toQ b)%Q.
Proof.
  destruct a, b; cbn [add toQ]; try reflexivity.
  rewrite inject_Z_plus. reflexivity.
Qed.

Lemma toQ_sub a b : (toQ (sub a b) == toQ a - toQ b)%Q.
Proof.
  destruct a, b; cbn [sub toQ]; try reflexivity.
  unfold Z.sub. rewrite inject_Z_plus, inject_Z_opp. reflexivity.
Qed.

Lemma toQ_mul a b : (toQ (mul a b) == toQ a * toQ b)%Q.
Proof.
  destruct a, b; cbn [mul toQ]; reflexivity.
Qed.

Lemma lt_true a b : lt a b = true <-> (toQ a < toQ b)%Q.
Proof.
  unfold lt. rewrite negb_true_iff.
  split; intro H.
  - apply Qnot_le_lt. intro Hle. apply Qle_bool_iff in Hle. congruence.
  - destruct (Qle_bool (toQ b) (toQ a)) eqn:E; [|reflexivity].
    apply Qle_bool_iff in E. exfalso. apply (Qlt_not_le _ _ H E).
Qed.

Lemma lt_false a b : lt a b = false <-> (toQ b <= toQ a)%Q.
Proof.
  unfold lt. rewrite negb_false_iff. apply Qle_bool_iff.
Qed.

Lemma py_max_r (a b : number) :
  (toQ a <= toQ b)%Q -> (toQ (py_max a b) == toQ b)%Q.
Proof.
  intro H. unfold py_max, gt. destruct (lt a b) eqn:E; [reflexivity|].
  apply lt_false in E. apply Qle_antisym; assumption.
Qed.

Lemma py_max_l (a b : number) :
  (toQ b <= toQ a)%Q -> (toQ (py_max a b) == toQ a)%Q.
Proof.
  intro H. unfold py_max, gt. destruct (lt a b) eqn:E; [|reflexivity].
  apply lt_true in E. exfalso. apply (Qlt_not_le _ _ E H).
Qed.

Lemma py_min_r (a b : number) :
  (toQ b <= toQ a)%Q -> (toQ (py_min a b) == toQ b)%Q.
Proof.
  intro H. unfold py_min. destruct (lt b a) eqn:E; [reflexivity|].
  apply lt_false in E. apply Qle_antisym; assumption.
Qed.

Lemma py_min_l (a b : number) :
  (toQ a <= toQ b)%Q -> (toQ (py_min a b) == toQ a)%Q.
Proof.
  intro H. unfold py_min. destruct (lt b a) eqn:E; [|reflexivity].
  apply lt_true in E. exfalso. apply (Qlt_not_le _ _ E H).
Qed.

Lemma py_max_cases (a b : number) :
  ((toQ b <= toQ a)%Q /\ (toQ (py_max a b) == toQ a)%Q) \/
  ((toQ a <= toQ b)%Q /\ (toQ (py_max a b) == toQ b)%Q).
Proof.
  destruct (Qlt_le_dec (toQ a) (toQ b)) as [H|H].
  - right. split; [lra | apply py_max_r; lra].
  - left. split; [assumption | apply py_max_l; assumption].
Qed.

Lemma py_min_cases (a b : number) :
  ((toQ a <= toQ b)%Q /\ (toQ (py_min a b) == toQ a)%Q) \/
  ((toQ b <= toQ a)%Q /\ (toQ (py_min a b) == toQ b)%Q).
Proof.
  destruct (Qlt_le_dec (toQ b) (toQ a)) as [H|H].
  - right. split; [lra | apply py_min_r; lra].
  - left. split; [assumption | apply py_min_l; assumption].
Qed.

Lemma py_min_Int (a b : Z) : py_min (Int a) (Int b) = Int (Z.min a b).
Proof.
  unfold py_min. destruct (lt (Int b) (Int a)) eqn:E.
  - apply lt_true in E. cbn [toQ] in E. rewrite <- Zlt_Qlt in E.
    f_equal. lia.
  - apply lt_false in E. cbn [toQ] in E. rewrite <- Zle_Qle in E.
    f_equal. lia.
Qed.

Lemma pow2_pos z : (0 < 2 ^ z)%Q.
Proof. apply Qpower_0_lt. reflexivity. Qed.

(** [2 ^ z] is never zero. *)
Ltac pow2_nonzero z :=
  let H := fresh in
  let Hp := fresh in
  intro H; pose proof (pow2_pos z) as Hp; rewrite H in Hp; inversion Hp.

Lemma inject_pow2 (z : Z) : 0 <= z -> (inject_Z (2 ^ z) == 2 ^ z)%Q.
Proof. intro H. apply (Zpower_Qpower 2 z H). Qed.

Lemma pow2i_nonneg (z : Z) : 0 <= z -> pow2i z = Int (2 ^ z).
Proof.
  intro H. unfold pow2i. destruct (0 <=? z) eqn:E; [reflexivity|].
  apply Z.leb_gt in E. lia.
Qed.

Lemma truediv_Return a b :
  ~ (toQ b == 0)%Q -> truediv a b = Return (Float (toQ a / toQ b)).
Proof.
  intro H. unfold truediv.
  destruct (Qeq_bool (toQ b) 0) eqn:E; [|reflexivity].
  apply Qeq_bool_iff in E. contradiction.
Qed.

Lemma truediv_pow2f a z :
  truediv a (pow2f z) = Return (Float (toQ a / 2 ^ z)).
Proof. apply truediv_Return. cbn [toQ pow2f]. pow2_nonzero z. Qed.

Lemma mod_Float_1 (q : Q) :
  mod_ (Float q) (Int 1) =
  Return (Float (q - inject_Z 1 * inject_Z (Qfloor (q / inject_Z 1)))).
Proof. reflexivity. Qed.

Lemma epsilon_tenth :
  truediv epsilon (Int 10) = Return (Float ((1 # 1000000000) / inject_Z 10)).
Proof. reflexivity. Qed.

Lemma tile_size_pos (lo hi : number) (z : Z) :
  (toQ lo < toQ hi)%Q -> (0 < toQ (sub hi lo) / 2 ^ z)%Q.
Proof.
  intro H. rewrite toQ_sub. apply Qlt_shift_div_l.
  - apply pow2_pos.
  - lra.
Qed.

(** [k] tiles of a [2^z] pyramid span at most the provider extent. *)
Lemma columns_within (lo hi : number) (z k : Z) :
  (toQ lo < toQ hi)%Q -> 0 <= z -> 0 <= k <= 2 ^ z ->
  (0 <= inject_Z k * (toQ (sub hi lo) / 2 ^ z) <= toQ hi - toQ lo)%Q.
Proof.
  intros H Hz [Hk0 Hk1].
  pose proof (tile_size_pos _ _ z H) as Hd.
  set (d := (toQ (sub hi lo) / 2 ^ z)%Q) in *.
  assert (Hd2 : (2 ^ z * d == toQ hi - toQ lo)%Q).
  { unfold d. rewrite toQ_sub. field. pow2_nonzero z. }
  rewrite Zle_Qle in Hk0, Hk1. rewrite (inject_pow2 _ Hz) in Hk1.
  split.
  - apply Qmult_le_0_compat; [assumption | apply Qlt_le_weak, Hd].
  - rewrite <- Hd2. apply Qmult_le_compat_r; [assumption|].
    apply Qlt_le_weak, Hd.
Qed.

(** ** Floors and the boundary nudge *)

Lemma Qfloor_of_int (q : Q) (k : Z) : (q == inject_Z k)%Q -> Qfloor q = k.
Proof. intro H. rewrite H. apply Qfloor_Z. Qed.

Lemma Qfloor_unique (q : Q) (k : Z) :
  (inject_Z k <= q)%Q -> (q < inject_Z (k + 1))%Q -> Qfloor q = k.
Proof.
  intros Hlo Hhi.
  pose proof (Qfloor_le q) as H1. pose proof (Qlt_floor q) as H2.
  assert (Qfloor q < k + 1).
  { rewrite Zlt_Qlt. eapply Qle_lt_trans; eassumption. }
  assert (k < Qfloor q + 1).
  { rewrite Zlt_Qlt. eapply Qle_lt_trans; eassumption. }
  lia.
Qed.

Lemma clamp_floor (a : number) :
  floor (if lt a (Int 0) then Int 0 else a) = Z.max 0 (Qfloor (toQ a)).
Proof.
  unfold floor. destruct (lt a (Int 0)) eqn:E.
  - apply lt_true in E. cbn [toQ] in *.
    rewrite Qfloor_Z.
    pose proof (Qfloor_le (toQ a)) as H.
    assert (Qfloor (toQ a) < 0).
    { rewrite Zlt_Qlt. eapply Qle_lt_trans; eassumption. }
    lia.
  - apply lt_false in E. cbn [toQ] in E.
    pose proof (Qfloor_resp_le _ _ E) as H. rewrite Qfloor_Z in H. lia.
Qed.

Lemma snap_comp (q q' : Q) : (q == q')%Q -> snap q = snap q'.
Proof.
  intro H. unfold snap.
  assert (Hf : Qfloor q = Qfloor q') by (rewrite H; reflexivity).
  assert (Hb : Qle_bool (1 # 10000000000) (q - inject_Z (Qfloor q))
               = Qle_bool (1 # 10000000000) (q' - inject_Z (Qfloor q')))
    by (rewrite Hf, H; reflexivity).
  rewrite Hb, Hf. reflexivity.
Qed.

Lemma snap_eq (q : Q) :
  floor
    (if lt (Float (q - inject_Z 1 * inject_Z (Qfloor (q / inject_Z 1))))
          (Float ((1 # 1000000000) / inject_Z 10))
     then sub (Float q) epsilon
     else Float q)
  = snap q.
Proof.
  assert (Hq1 : (q / inject_Z 1 == q)%Q) by (field).
  unfold snap, lt. cbn [toQ]. rewrite Hq1.
  assert (He : ((1 # 1000000000) / inject_Z 10 == 1 # 10000000000)%Q)
    by reflexivity.
  rewrite He.
  setoid_replace (q - inject_Z 1 * inject_Z (Qfloor q))%Q
    with (q - inject_Z (Qfloor q))%Q by ring.
  pose proof (Qfloor_le q) as H1. pose proof (Qlt_floor q) as H2.
  rewrite inject_Z_plus in H2.
  destruct (Qle_bool (1 # 10000000000) (q - inject_Z (Qfloor q))) eqn:E;
    cbn [negb]; [reflexivity|].
  assert (Hlt : (q - inject_Z (Qfloor q) < 1 # 10000000000)%Q).
  { apply Qnot_le_lt. intro Hle. apply Qle_bool_iff in Hle. congruence. }
  unfold floor, epsilon. cbn [sub toQ].
  apply Qfloor_unique.
  - unfold Z.sub. rewrite inject_Z_plus, inject_Z_opp.
    change (inject_Z 1) with 1%Q in *. lra.
  - replace (Qfloor q - 1 + 1) with (Qfloor q) by lia.
    change (inject_Z 1) with 1%Q in *. lra.
Qed.

Lemma snap_unique (q : Q) (k : Z) :
  (inject_Z k + (1 # 10000000000) <= q)%Q -> (q <= inject_Z k + 1)%Q ->
  snap q = k.
Proof.
  intros Hlo Hhi. unfold snap.
  destruct (Qeq_dec q (inject_Z k + 1)) as [Heq|Hne].
  - assert (Hf : Qfloor q = k + 1).
    { rewrite Heq. rewrite <- (Qfloor_Z (k + 1)).
      rewrite inject_Z_plus. reflexivity. }
    rewrite Hf.
    destruct (Qle_bool _ _) eqn:E; [|lia].
    apply Qle_bool_iff in E. rewrite inject_Z_plus in E.
    change (inject_Z 1) with 1%Q in *. lra.
  - assert (Hf : Qfloor q = k).
    { apply Qfloor_unique.
      - lra.
      - rewrite inject_Z_plus. change (inject_Z 1) with 1%Q.
        apply Qle_lteq in Hhi. destruct Hhi; [assumption | contradiction]. }
    rewrite Hf.
    destruct (Qle_bool _ _) eqn:E; [reflexivity|].
    exfalso. apply (eq_true_false_abs _ ) in E; [assumption|].
    apply Qle_bool_iff. lra.
Qed.

(** ** Ranges and loops *)

Lemma range_one (k : Z) : range k (k + 1) = [k].
Proof.
  unfold range. replace (k + 1 - k) with 1 by lia.
  change (Z.to_nat 1) with 1%nat. cbn [seq map].
  change (Z.of_nat 0) with 0. rewrite Z.add_0_r. reflexivity.
Qed.

Lemma in_range (lo hi k : Z) : In k (range lo hi) <-> lo <= k < hi.
Proof.
  unfold range. rewrite in_map_iff. split.
  - intros [m [<- Hm]]. apply in_seq in Hm. lia.
  - intro H. exists (Z.to_nat (k - lo)). split; [lia|].
    apply in_seq. lia.
Qed.

Lemma range_empty (lo hi : Z) : hi <= lo -> range lo hi = [].
Proof.
  intro H. unfold range. replace (Z.to_nat (hi - lo)) with 0%nat by lia.
  reflexivity.
Qed.

Lemma length_range (lo hi : Z) : length (range lo hi) = Z.to_nat (hi - lo).
Proof. unfold range. rewrite length_map, length_seq. reflexivity. Qed.

Lemma seq_map_sorted (f : nat -> Z) (start n : nat) :
  (forall i j : nat, (i < j)%nat -> f i < f j) ->
  StronglySorted Z.lt (map f (seq start n)).
Proof.
  intro Hf. revert start.
  induction n as [|n IH]; intro start; cbn [seq map]; constructor.
  - apply IH.
  - apply Forall_forall. intros k Hk.
    apply in_map_iff in Hk. destruct Hk as [j [<- Hj]].
    apply in_seq in Hj. apply Hf. lia.
Qed.

Lemma range_sorted (lo hi : Z) : StronglySorted Z.lt (range lo hi).
Proof. apply seq_map_sorted. intros i j H. lia. Qed.

Lemma py_range_sorted (lo : Z) (hi : number) (l : list Z) :
  py_range lo hi = Return l -> StronglySorted Z.lt l.
Proof.
  destruct hi; cbn [py_range]; [|discriminate].
  intros [= <-]. apply range_sorted.
Qed.

Lemma sorted_app {A : Type} (R : A -> A -> Prop) (l1 l2 : list A) :
  StronglySorted R l1 -> StronglySorted R l2 ->
  (forall a b, In a l1 -> In b l2 -> R a b) ->
  StronglySorted R (l1 ++ l2).
Proof.
  intros H1 H2 H12. induction H1 as [|a l1 H1 IH Ha]; [exact H2|].
  cbn [app]. constructor.
  - apply IH. intros x y Hx Hy. apply H12; [right; exact Hx | exact Hy].
  - apply Forall_app. split; [exact Ha|].
    apply Forall_forall. intros y Hy. apply H12; [left; reflexivity | exact Hy].
Qed.

Lemma for_single {A T : Type} (a : A) (body : A -> trace T) :
  for_ [a] body = body a.
Proof.
  cbn [for_]. destruct (body a) as [ys [e|]]; [reflexivity|].
  rewrite app_nil_r. reflexivity.
Qed.

Lemma for_rows (i z : Z) (b : Bbox) (js : list Z) :
  for_ js (fun j => ([Tile i j z b], None)) =
  (map (fun j => Tile i j z b) js, None).
Proof.
  induction js as [|j js IH]; [reflexivity|].
  cbn [for_ map]. rewrite IH. reflexivity.
Qed.

Lemma for_columns (z : Z) (b : Bbox) (is_ js : list Z) :
  for_ is_ (fun i =>
    then_ (Return js) (fun js => for_ js (fun j => ([Tile i j z b], None))))
  = (grid z b is_ js, None).
Proof.
  induction is_ as [|i is_ IH]; [reflexivity|].
  cbn [for_ then_ grid flat_map] in *. rewrite for_rows, IH. reflexivity.
Qed.

Lemma for_raise {A T : Type} (l : list A) (e : exn) :
  fst (for_ (T:=T) l (fun _ => ([], Some e))) = [].
Proof. destruct l; reflexivity. Qed.

Lemma for_blocks {A T : Type} (l : list A) (body : A -> trace T) :
  exists k : nat,
    (k <= length l)%nat /\
    fst (for_ l body) = concat (map (fun a => fst (body a)) (firstn k l)).
Proof.
  induction l as [|a l [k [Hk IH]]].
  - exists 0%nat. split; [cbn; lia | reflexivity].
  - cbn [for_]. destruct (body a) as [ys [e|]] eqn:E.
    + exists 1%nat. split; [cbn; lia|].
      cbn [firstn map concat fst]. rewrite E. cbn [fst].
      rewrite app_nil_r. reflexivity.
    + exists (S k). split; [cbn; lia|].
      cbn [firstn map concat]. rewrite E. cbn [fst].
      destruct (for_ l body) as [zs e']. cbn [fst] in *.
      rewrite IH. reflexivity.
Qed.

Lemma Forall2_map_r {A B : Type} (P : A -> B -> Prop) (f : A -> B)
  (l : list A) :
  (forall a, P a (f a)) -> Forall2 P l (map f l).
Proof. intro H. induction l; cbn [map]; constructor; auto. Qed.

(** ** Parsing the tile arguments *)

Lemma parse_resolved args cs :
  resolve args = Some cs ->
  _parse_tile_arg args =
  if Nat.eqb (length cs) 4 then WMTSTile_star (PySeq cs)
  else Raise TileArgParsingError.
Proof.
  destruct args as [|a [|a' args]]; cbn [resolve].
  - intros [= <-]. reflexivity.
  - destruct a; [discriminate|]. intros [= <-]. reflexivity.
  - destruct a; intros [= <-]; reflexivity.
Qed.

Lemma parse_unresolved args :
  resolve args = None -> _parse_tile_arg args = Raise TypeError.
Proof.
  destruct args as [|[n|l] [|a' args]]; cbn [resolve]; try discriminate.
  reflexivity.
Qed.

(** C7, as stated, fails: a lone argument that is not a sequence does not
    resolve to four components, yet the parser does not raise
    [TileArgParsingError] on it; [len] raises [TypeError] first. *)
Lemma parse_tile_arg_lone_number :
  ~ (exists cs, resolve [PyNum (Int 5)] = Some cs /\ length cs = 4%nat) /\
  _parse_tile_arg [PyNum (Int 5)] = Raise TypeError /\
  _parse_tile_arg [PyNum (Int 5)] <> Raise TileArgParsingError.
Proof.
  split; [intros [cs [H _]]; discriminate H |].
  split; [reflexivity | discriminate].
Qed.

(** C7, amended.  One argument that is a 4-element sequence, or four
    positional arguments, give a tile without error.
    [TileArgParsingError] is raised exactly when the arguments resolve to
    a number of components other than four, and a tile is returned
    exactly when they resolve to four.  A lone argument that is not a
    sequence resolves to no components and raises [TypeError]. *)
Theorem parse_tile_arg_four_components :
  (forall a b c d : pyobj,
     _parse_tile_arg [PySeq [a; b; c; d]] = Return (mkWMTSTile a b c d)) /\
  (forall a b c d : pyobj,
     _parse_tile_arg [a; b; c; d] = Return (mkWMTSTile a b c d)) /\
  (forall args : list pyobj,
     _parse_tile_arg args = Raise TileArgParsingError <->
     exists cs, resolve args = Some cs /\ length cs <> 4%nat) /\
  (forall args : list pyobj,
     (exists t, _parse_tile_arg args = Return t) <->
     exists cs, resolve args = Some cs /\ length cs = 4%nat) /\
  (forall n : number, _parse_tile_arg [PyNum n] = Raise TypeError).
Proof.
  split; [reflexivity | split; [reflexivity |]].
  split; [| split; [| reflexivity]];
    intro args; destruct (resolve args) as [cs|] eqn:E.
  - rewrite (parse_resolved _ _ E). split.
    + intro H. exists cs. split; [reflexivity|].
      destruct cs as [|a [|b [|c [|d [|e cs]]]]]; cbn in *;
        try discriminate; lia.
    + intros [cs' [[= <-] H]].
      destruct cs as [|a [|b [|c [|d [|e cs]]]]]; cbn in *;
        try reflexivity; lia.
  - rewrite (parse_unresolved _ E). split.
    + discriminate.
    + intros [cs [H _]]. discriminate.
  - rewrite (parse_resolved _ _ E). split.
    + intros [t H]. exists cs. split; [reflexivity|].
      destruct cs as [|a [|b [|c [|d [|e cs]]]]]; cbn in *;
        try discriminate; reflexivity.
    + intros [cs' [[= <-] H]].
      destruct cs as [|a [|b [|c [|d [|e cs]]]]]; cbn in *;
        try discriminate. eexists. reflexivity.
  - rewrite (parse_unresolved _ E). split.
    + intros [t H]. discriminate.
    + intros [cs [H _]]. discriminate.
Qed.

(** ** The upper-left corner and the box of a tile *)

Lemma ul_Return x y z b :
  ul [PyNum x; PyNum y; PyNum (Int z); of_bbox b] =
  Return
    (mkXY
       (add (bb_left b)
          (mul x (Float (toQ (sub (bb_right b) (bb_left b)) / 2 ^ z))))
       (sub (bb_top b)
          (mul y (Float (toQ (sub (bb_top b) (bb_bottom b)) / 2 ^ z))))).
Proof.
  unfold ul. simpl. rewrite !truediv_pow2f. reflexivity.
Qed.

Lemma bounds_Return x y z b :
  bounds [PyNum x; PyNum y; PyNum (Int z); of_bbox b] =
  Return
    (mkBbox
       (add (bb_left b)
          (mul x (Float (toQ (sub (bb_right b) (bb_left b)) / 2 ^ z))))
       (sub (bb_top b)
          (mul (add y (Int 1))
             (Float (toQ (sub (bb_top b) (bb_bottom b)) / 2 ^ z))))
       (add (bb_left b)
          (mul (add x (Int 1))
             (Float (toQ (sub (bb_right b) (bb_left b)) / 2 ^ z))))
       (sub (bb_top b)
          (mul y (Float (toQ (sub (bb_top b) (bb_bottom b)) / 2 ^ z))))).
Proof.
  unfold bounds.
  change (_parse_tile_arg [PyNum x; PyNum y; PyNum (Int z); of_bbox b])
    with (Return (mkWMTSTile (PyNum x) (PyNum y) (PyNum (Int z)) (of_bbox b))).
  cbn [bind]. rewrite ul_Return. cbn [bind py_add py_binop].
  rewrite ul_Return. reflexivity.
Qed.

(** [bounds(t)] for a tile passed as the single argument. *)
Lemma bounds_of_tile x y z b :
  bounds [of_tile (Tile x y z b)] =
  bounds [PyNum (Int x); PyNum (Int y); PyNum (Int z); of_bbox b].
Proof. reflexivity. Qed.

(** *** What [ul] returns, and when *)

Lemma binary64_of_int_Return (i : Z) :
  Z.abs i < 2 ^ 53 -> exists f : float, Binary64.of_int i = Return f.
Proof.
  intro H. unfold Binary64.of_int.
  destruct (Z.abs i <? 2 ^ 53) eqn:E.
  - eexists. reflexivity.
  - apply Z.ltb_ge in E. exfalso. apply (Z.lt_irrefl (2 ^ 53)).
    eapply Z.le_lt_trans; eassumption.
Qed.

(** From [zoom = -1074] to [zoom = 1023], [2.0 ** zoom] is a float other
    than zero. *)
Lemma binary64_pow2f_nonzero (z : Z) :
  -1074 <= z <= 1023 ->
  Binary64.pow2f z = Return (Z.ldexp 1 z) /\
  (Z.ldexp 1 z =? 0)%float = false.
Proof.
  intro Hz. split.
  - unfold Binary64.pow2f.
    destruct (1024 <=? z) eqn:E1; [apply Z.leb_le in E1; lia|].
    destruct (- 2 ^ 53 <? z) eqn:E2; [reflexivity|].
    apply Z.ltb_ge in E2.
    change (- 2 ^ 53) with (-9007199254740992) in E2. lia.
  - assert (H : forallb (fun k => negb (Z.ldexp 1 k =? 0)%float)
                  (range (-1074) 1024) = true) by (vm_compute; reflexivity).
    rewrite forallb_forall in H. apply negb_true_iff, H, in_range. lia.
Qed.

(** C6, as stated, fails: [ul] checks nothing, but its arithmetic raises
    on numeric input.  In binary64, [2.0 ** zoom] raises [OverflowError]
    at zoom 1024; at zoom -1075 it is [0.0] and the division by it raises
    [ZeroDivisionError]; and an int index of [2 ^ 1024] cannot be
    multiplied by the float tile size. *)
Lemma binary64_ul_raises :
  Binary64.ul 0 0 1024 Binary64.web_mercator = Raise OverflowError /\
  Binary64.ul 0 0 (-1075) Binary64.web_mercator = Raise ZeroDivisionError /\
  Binary64.ul (2 ^ 1024) 0 0 Binary64.web_mercator = Raise OverflowError.
Proof.
  split; [vm_compute; reflexivity |].
  split; vm_compute; reflexivity.
Qed.

(** C6, amended.  [ul] checks nothing.  Computed over exact arithmetic,
    for every provider bounds, int zoom and numbers [x], [y] (ints or
    fractional) it returns, without raising, the point
    [(left + x*(right-left)/2^z, top - y*(top-bottom)/2^z)].  In binary64,
    for float bounds, an int zoom from -1074 to 1023 and int indices
    below [2 ^ 53] in magnitude, it returns without raising the point that
    the same formula gives in floats, [left + x * ((right - left) / 2^z)]
    and [top - y * ((top - bottom) / 2^z)], each operation rounded. *)
Theorem ul_computes_formula :
  (forall (x y : number) (z : Z) (b : Bbox),
   exists p : XY,
     ul [PyNum x; PyNum y; PyNum (Int z); of_bbox b] = Return p /\
     (toQ (xy_x p) ==
        fst (ul_formula (toQ x) (toQ y) z (toQ (bb_left b)) (toQ (bb_bottom b))
               (toQ (bb_right b)) (toQ (bb_top b))))%Q /\
     (toQ (xy_y p) ==
        snd (ul_formula (toQ x) (toQ y) z (toQ (bb_left b)) (toQ (bb_bottom b))
               (toQ (bb_right b)) (toQ (bb_top b))))%Q) /\
  (forall (b : Binary64.Bbox) (z x y : Z),
   -1074 <= z <= 1023 ->
   Z.abs x < 2 ^ 53 ->
   Z.abs y < 2 ^ 53 ->
   exists fx fy : float,
     Binary64.of_int x = Return fx /\
     Binary64.of_int y = Return fy /\
     Binary64.ul x y z b =
     Return
       (Binary64.mkXY
          (Binary64.bb_left b
           + fx * ((Binary64.bb_right b - Binary64.bb_left b) / Z.ldexp 1 z))
          (Binary64.bb_top b
           - fy * ((Binary64.bb_top b - Binary64.bb_bottom b) / Z.ldexp 1 z))
       )%float).
Proof.
  split.
  - intros x y z b. rewrite ul_Return. eexists. split; [reflexivity|].
    cbn [xy_x xy_y ul_formula fst snd].
    split.
    + rewrite toQ_add, toQ_mul. cbn [toQ]. rewrite toQ_sub.
      field. pow2_nonzero z.
    + rewrite toQ_sub, toQ_mul. cbn [toQ]. rewrite toQ_sub.
      field. pow2_nonzero z.
  - intros b z x y Hz Hx Hy.
    destruct (binary64_pow2f_nonzero z Hz) as [Hp Hn].
    destruct (binary64_of_int_Return x Hx) as [fx Hfx].
    destruct (binary64_of_int_Return y Hy) as [fy Hfy].
    exists fx, fy. split; [exact Hfx | split; [exact Hfy |]].
    unfold Binary64.ul. rewrite Hp. cbn [bind].
    unfold Binary64.truediv. rewrite Hn. cbn [bind].
    rewrite Hfx, Hfy. reflexivity.
Qed.

Lemma ul_computes_formula_witness :
  -1074 <= 4 <= 1023 /\
  Z.abs 1 < 2 ^ 53 /\
  Z.abs 0 < 2 ^ 53 /\
  exists fx fy : float,
    Binary64.of_int 1 = Return fx /\
    Binary64.of_int 0 = Return fy /\
    Binary64.ul 1 0 4 Binary64.web_mercator =
    Return
      (Binary64.mkXY
         (Binary64.bb_left Binary64.web_mercator
          + fx * ((Binary64.bb_right Binary64.web_mercator
                   - Binary64.bb_left Binary64.web_mercator) / Z.ldexp 1 4))
         (Binary64.bb_top Binary64.web_mercator
          - fy * ((Binary64.bb_top Binary64.web_mercator
                   - Binary64.bb_bottom Binary64.web_mercator) / Z.ldexp 1 4))
      )%float.
Proof.
  assert (Hz : -1074 <= 4 <= 1023) by lia.
  assert (Hx : Z.abs 1 < 2 ^ 53) by reflexivity.
  assert (Hy : Z.abs 0 < 2 ^ 53) by reflexivity.
  split; [exact Hz | split; [exact Hx | split; [exact Hy |]]].
  apply (proj2 ul_computes_formula Binary64.web_mercator 4 1 0 Hz Hx Hy).
Defined.

(** *** Neighbouring tiles *)

(** On binary64 floats the shared edge is computed by the same
    operations on both sides. *)
Lemma binary64_bounds_adjacent_edges (b : Binary64.Bbox) (z x y : Z)
  (b0 b1 b2 : Binary64.Bbox) :
  Binary64.bounds x y z b = Return b0 ->
  Binary64.bounds (x + 1) y z b = Return b1 ->
  Binary64.bounds x (y + 1) z b = Return b2 ->
  Binary64.bb_right b0 = Binary64.bb_left b1 /\
  Binary64.bb_bottom b0 = Binary64.bb_top b2.
Proof.
  unfold Binary64.bounds, Binary64.ul.
  destruct (Binary64.pow2f z) as [n|]; cbn [bind]; [|discriminate].
  destruct (Binary64.truediv _ n) as [tile_dx|]; cbn [bind]; [|discriminate].
  destruct (Binary64.truediv _ n) as [tile_dy|]; cbn [bind]; [|discriminate].
  destruct (Binary64.of_int x) as [fx|]; cbn [bind]; [|discriminate].
  destruct (Binary64.of_int y) as [fy|]; cbn [bind]; [|discriminate].
  destruct (Binary64.of_int (x + 1)) as [fx1|]; cbn [bind]; [|discriminate].
  destruct (Binary64.of_int (y + 1)) as [fy1|]; cbn [bind]; [|discriminate].
  destruct (Binary64.of_int (x + 1 + 1)) as [fx2|]; cbn [bind];
    [|discriminate].
  destruct (Binary64.of_int (y + 1 + 1)) as [fy2|]; cbn [bind];
    [|intros _ _ H; discriminate H].
  intros [= <-] [= <-] [= <-]. split; reflexivity.
Qed.

(** C5.  Neighbouring tiles share their edge exactly, whatever the
    arithmetic: whenever [bounds] returns for the three tiles (it raises
    where [ul] does), the right edge of tile [(x, y)] is the left edge of
    tile [(x+1, y)], and its bottom edge is the top edge of tile
    [(x, y+1)], the same number.  This holds for every bounds, zoom and
    int indices, over exact arithmetic and in binary64 alike. *)
Theorem bounds_adjacent_edges :
  (forall (b : Bbox) (z x y : Z) (b0 b1 b2 : Bbox),
   bounds [PyNum (Int x); PyNum (Int y); PyNum (Int z); of_bbox b]
     = Return b0 ->
   bounds [PyNum (Int (x + 1)); PyNum (Int y); PyNum (Int z); of_bbox b]
     = Return b1 ->
   bounds [PyNum (Int x); PyNum (Int (y + 1)); PyNum (Int z); of_bbox b]
     = Return b2 ->
   bb_right b0 = bb_left b1 /\ bb_bottom b0 = bb_top b2) /\
  (forall (b : Binary64.Bbox) (z x y : Z) (b0 b1 b2 : Binary64.Bbox),
   Binary64.bounds x y z b = Return b0 ->
   Binary64.bounds (x + 1) y z b = Return b1 ->
   Binary64.bounds x (y + 1) z b = Return b2 ->
   Binary64.bb_right b0 = Binary64.bb_left b1 /\
   Binary64.bb_bottom b0 = Binary64.bb_top b2).
Proof.
  split.
  - intros b z x y b0 b1 b2. rewrite !bounds_Return.
    intros [= <-] [= <-] [= <-]. split; reflexivity.
  - exact binary64_bounds_adjacent_edges.
Qed.

Lemma bounds_adjacent_edges_witness :
  (exists b0 b1 b2 : Bbox,
     bounds [PyNum (Int 1); PyNum (Int 1); PyNum (Int 2); of_bbox bbox100]
       = Return b0 /\
     bounds [PyNum (Int (1 + 1)); PyNum (Int 1); PyNum (Int 2);
             of_bbox bbox100] = Return b1 /\
     bounds [PyNum (Int 1); PyNum (Int (1 + 1)); PyNum (Int 2);
             of_bbox bbox100] = Return b2 /\
     bb_right b0 = bb_left b1 /\ bb_bottom b0 = bb_top b2) /\
  (exists b0 b1 b2 : Binary64.Bbox,
     Binary64.bounds 1 0 4 Binary64.web_mercator = Return b0 /\
     Binary64.bounds (1 + 1) 0 4 Binary64.web_mercator = Return b1 /\
     Binary64.bounds 1 (0 + 1) 4 Binary64.web_mercator = Return b2 /\
     Binary64.bb_right b0 = Binary64.bb_left b1 /\
     Binary64.bb_bottom b0 = Binary64.bb_top b2).
Proof.
  split.
  - do 3 eexists.
    split; [vm_compute; reflexivity |].
    split; [vm_compute; reflexivity |].
    split; [vm_compute; reflexivity |].
    eapply (proj1 bounds_adjacent_edges bbox100 2 1 1);
      vm_compute; reflexivity.
  - do 3 eexists.
    split; [vm_compute; reflexivity |].
    split; [vm_compute; reflexivity |].
    split; [vm_compute; reflexivity |].
    eapply (proj2 bounds_adjacent_edges Binary64.web_mercator 4 1 0);
      vm_compute; reflexivity.
Defined.

(** C10.  The box of a tile is well formed whenever the provider bounds
    are: over exact arithmetic its left edge is strictly left of its
    right edge and its bottom strictly below its top. *)
Theorem bounds_well_formed :
  forall (b : Bbox) (z x y : Z),
  well_formed b ->
  0 <= z ->
  exists bb : Bbox,
    bounds [PyNum (Int x); PyNum (Int y); PyNum (Int z); of_bbox b]
      = Return bb /\
    well_formed bb.
Proof.
  intros b z x y [Hx Hy] _. rewrite bounds_Return.
  eexists. split; [reflexivity|].
  pose proof (tile_size_pos _ _ z Hx) as Hdx.
  pose proof (tile_size_pos _ _ z Hy) as Hdy.
  unfold well_formed. cbn [bb_left bb_right bb_bottom bb_top].
  set (dx := (toQ (sub (bb_right b) (bb_left b)) / 2 ^ z)%Q) in *.
  set (dy := (toQ (sub (bb_top b) (bb_bottom b)) / 2 ^ z)%Q) in *.
  split.
  - rewrite !toQ_add, !toQ_mul. cbn [add toQ].
    rewrite inject_Z_plus.
    setoid_replace ((inject_Z x + inject_Z 1) * dx)%Q
      with (inject_Z x * dx + dx)%Q by ring.
    lra.
  - rewrite !toQ_sub, !toQ_mul. cbn [add toQ].
    rewrite inject_Z_plus.
    setoid_replace ((inject_Z y + inject_Z 1) * dy)%Q
      with (inject_Z y * dy + dy)%Q by ring.
    lra.
Qed.

Lemma bounds_well_formed_witness :
  well_formed bbox100 /\
  0 <= 2 /\
  exists bb : Bbox,
    bounds [PyNum (Int 1); PyNum (Int 1); PyNum (Int 2); of_bbox bbox100]
      = Return bb /\
    well_formed bb.
Proof.
  assert (H : well_formed bbox100) by (split; reflexivity).
  split; [exact H | split; [lia |]].
  apply (bounds_well_formed bbox100 2 1 1); [exact H | lia].
Defined.

(** ** Well-formed provider bounds *)

Section WellFormedBounds.

Variables (b : Bbox) (z : Z).
Hypothesis Hwf : well_formed b.

Lemma tile_dx_pos : (0 < toQ (sub (bb_right b) (bb_left b)) / 2 ^ z)%Q.
Proof. apply tile_size_pos, Hwf. Qed.

Lemma tile_dy_pos : (0 < toQ (sub (bb_top b) (bb_bottom b)) / 2 ^ z)%Q.
Proof. apply tile_size_pos, Hwf. Qed.

Lemma _tile_Return x y tr :
  _tile x y z b tr =
  Return
    (Float (toQ (sub x (bb_left b))
            / (toQ (sub (bb_right b) (bb_left b)) / 2 ^ z)),
     Float (toQ (sub (bb_top b) y)
            / (toQ (sub (bb_top b) (bb_bottom b)) / 2 ^ z)),
     z).
Proof.
  unfold _tile. rewrite !truediv_pow2f. cbn [bind].
  pose proof tile_dx_pos as Hdx. pose proof tile_dy_pos as Hdy.
  rewrite !truediv_Return; [reflexivity| |]; cbn [toQ]; intro H.
  - rewrite H in Hdy. inversion Hdy.
  - rewrite H in Hdx. inversion Hdx.
Qed.

Lemma xindex_of_column (w : number) (k : Z) :
  (toQ w ==
   toQ (bb_left b)
   + inject_Z k * (toQ (sub (bb_right b) (bb_left b)) / 2 ^ z))%Q ->
  (xindex z b w == inject_Z k)%Q.
Proof.
  intro H. destruct Hwf as [Hx _].
  unfold xindex. rewrite toQ_sub, H, toQ_sub.
  field. split; [pow2_nonzero z | lra].
Qed.

Lemma yindex_of_row (s : number) (k : Z) :
  (toQ s ==
   toQ (bb_top b)
   - inject_Z k * (toQ (sub (bb_top b) (bb_bottom b)) / 2 ^ z))%Q ->
  (yindex z b s == inject_Z k)%Q.
Proof.
  intro H. destruct Hwf as [_ Hy].
  unfold yindex. rewrite toQ_sub, H, toQ_sub.
  field. split; [pow2_nonzero z | lra].
Qed.

(** On well-formed bounds and a non-negative zoom, one zoom level yields
    a full grid of columns and rows and raises nothing. *)
Lemma tiles_zoom_grid (w s e n : number) :
  0 <= z ->
  tiles_zoom w s e n z b =
  (grid z b
     (range (Z.max 0 (Qfloor (xindex z b w)))
            (Z.min (snap (xindex z b e) + 1) (2 ^ z)))
     (range (Z.max 0 (Qfloor (yindex z b n)))
            (Z.min (snap (yindex z b s) + 1) (2 ^ z))),
   None).
Proof.
  intro Hz. unfold tiles_zoom.
  rewrite !_tile_Return. cbn [then_].
  rewrite !mod_Float_1, !epsilon_tenth. cbn [then_].
  rewrite !snap_eq, !clamp_floor, (pow2i_nonneg _ Hz), !py_min_Int.
  cbn [py_range then_ toQ]. apply for_columns.
Qed.

End WellFormedBounds.

Lemma well_formed_bbox100 : well_formed bbox100.
Proof. split; reflexivity. Qed.

(** ** From a point back to its tile *)

(** C9.  The [truncate] flag of [tile] has no effect: both values give
    the same outcome, on every input. *)
Theorem tile_ignores_truncate :
  forall (x y : number) (zoom : Z) (provider_bounds : Bbox),
  tile x y zoom provider_bounds true = tile x y zoom provider_bounds false.
Proof. reflexivity. Qed.

Lemma binary64_tile_ignores_truncate (x y : float) (zoom : Z)
  (provider_bounds : Binary64.Bbox) :
  Binary64.tile x y zoom provider_bounds true
  = Binary64.tile x y zoom provider_bounds false.
Proof. reflexivity. Qed.

(** C4, amended.  Round trip, computed over exact arithmetic: the
    upper-left corner of the tile [(x, y, z, b)] lies in that same tile,
    whatever the [truncate] flag (the corner's index is the integer
    itself, so flooring keeps it). *)
Theorem tile_ul_roundtrip :
  forall (b : Bbox) (z x y : Z) (truncate : bool),
  well_formed b ->
  0 <= z ->
  0 <= x < 2 ^ z ->
  0 <= y < 2 ^ z ->
  exists p : XY,
    ul [PyNum (Int x); PyNum (Int y); PyNum (Int z); of_bbox b] = Return p /\
    tile (xy_x p) (xy_y p) z b truncate = Return (Tile x y z b).
Proof.
  intros b z x y tr Hwf _ _ _. rewrite ul_Return.
  eexists. split; [reflexivity|].
  cbn [xy_x xy_y]. unfold tile. rewrite (_tile_Return b z Hwf).
  cbn [bind]. destruct Hwf as [Hx Hy].
  pose proof (tile_size_pos _ _ z Hx) as Hdx.
  pose proof (tile_size_pos _ _ z Hy) as Hdy.
  set (dx := (toQ (sub (bb_right b) (bb_left b)) / 2 ^ z)%Q) in *.
  set (dy := (toQ (sub (bb_top b) (bb_bottom b)) / 2 ^ z)%Q) in *.
  unfold floor. cbn [toQ].
  rewrite (Qfloor_of_int _ x), (Qfloor_of_int _ y); [reflexivity| |].
  - rewrite !toQ_sub, toQ_mul. cbn [toQ]. field. lra.
  - rewrite toQ_sub, toQ_add, toQ_mul. cbn [toQ]. field. lra.
Qed.

Lemma tile_ul_roundtrip_witness :
  well_formed bbox100 /\
  0 <= 2 /\
  0 <= 1 < 2 ^ 2 /\
  0 <= 3 < 2 ^ 2 /\
  exists p : XY,
    ul [PyNum (Int 1); PyNum (Int 3); PyNum (Int 2); of_bbox bbox100]
      = Return p /\
    tile (xy_x p) (xy_y p) 2 bbox100 false = Return (Tile 1 3 2 bbox100).
Proof.
  assert (H : well_formed bbox100) by (split; reflexivity).
  repeat (split; [first [exact H | lia] |]).
  apply (tile_ul_roundtrip bbox100 2 1 3 false); [exact H | lia ..].
Defined.

(** C4, as stated, fails on the program's own arithmetic.  In binary64,
    on the Web-Mercator extent at zoom 4, the corner of tile [(1, 0)] is
    [left + 1 * tile_dx], rounded; subtracting [left] again gives a little
    less than [tile_dx], the index comes out as [0.9999999999999994], and
    [tile] returns [(0, 0)]. *)
Lemma binary64_tile_ul_no_roundtrip :
  (Binary64.bb_left Binary64.web_mercator
   <? Binary64.bb_right Binary64.web_mercator)%float = true /\
  (Binary64.bb_bottom Binary64.web_mercator
   <? Binary64.bb_top Binary64.web_mercator)%float = true /\
  0 <= 4 /\
  0 <= 1 < 2 ^ 4 /\
  0 <= 0 < 2 ^ 4 /\
  exists p : Binary64.XY,
    Binary64.ul 1 0 4 Binary64.web_mercator = Return p /\
    Binary64.tile (Binary64.xy_x p) (Binary64.xy_y p) 4
      Binary64.web_mercator false
    = Return (Binary64.mkWMTSTile 0 0 4 Binary64.web_mercator) /\
    Binary64.tile (Binary64.xy_x p) (Binary64.xy_y p) 4
      Binary64.web_mercator false
    <> Return (Binary64.mkWMTSTile 1 0 4 Binary64.web_mercator).
Proof.
  repeat (split; [first [reflexivity | lia] |]).
  eexists. split; [vm_compute; reflexivity |].
  split; [vm_compute; reflexivity |].
  vm_compute. intro H. inversion H.
Qed.

(** ** Enumerating tiles *)

(** C1.  With [truncate=True] the corners are clamped, but [bboxes] is
    bound on the other branch only: iterating raises [UnboundLocalError]
    before any tile is yielded, on every input. *)
Theorem tiles_truncate_raises :
  forall (west south east north : number) (zooms : zooms_arg) (b : Bbox),
  tiles west south east north zooms b true = ([], Some UnboundLocalError).
Proof. reflexivity. Qed.

Lemma binary64_tiles_truncate_raises (west south east north : float)
  (zooms : zooms_arg) (b : Binary64.Bbox) :
  Binary64.tiles west south east north zooms b true
  = ([], Some UnboundLocalError).
Proof. reflexivity. Qed.

Lemma tiles_one_zoom (west south east north : number) (z : Z) (b : Bbox) :
  tiles west south east north (ZoomInt z) b false =
  tiles_zoom (py_max (bb_left b) west) (py_max (bb_bottom b) south)
    (py_min (bb_right b) east) (py_min (bb_top b) north) z b.
Proof.
  unfold tiles. rewrite for_single. cbn [zoom_list].
  apply (for_single z (fun z0 => tiles_zoom _ _ _ _ z0 b)).
Qed.

(** *** The exact bounds of a tile *)

(** The exact-bounds property holds in exact arithmetic: querying [tiles]
    with the exact bounds of a tile, at the tile's zoom, yields that tile
    and nothing else.  The indices of the four edges come out as the
    integers [x], [x + 1], [y] and [y + 1], and the nudge brings the east
    and south ones back. *)
Theorem tiles_of_tile_bounds :
  forall (b : Bbox) (z x y : Z),
  well_formed b ->
  0 <= z ->
  0 <= x < 2 ^ z ->
  0 <= y < 2 ^ z ->
  exists bb : Bbox,
    bounds [of_tile (Tile x y z b)] = Return bb /\
    tiles (bb_left bb) (bb_bottom bb) (bb_right bb) (bb_top bb)
      (ZoomInt z) b false
    = ([Tile x y z b], None).
Proof.
  intros b z x y Hwf Hz Hx Hy.
  rewrite bounds_of_tile, bounds_Return. eexists. split; [reflexivity|].
  cbn [bb_left bb_bottom bb_right bb_top add].
  rewrite tiles_one_zoom, (tiles_zoom_grid b z Hwf _ _ _ _ Hz).
  pose proof Hwf as [Hlr Hbt].
  pose proof (columns_within _ _ z x Hlr Hz ltac:(lia)) as [Hx0 Hx1].
  pose proof (columns_within _ _ z (x + 1) Hlr Hz ltac:(lia)) as [Hx2 Hx3].
  pose proof (columns_within _ _ z y Hbt Hz ltac:(lia)) as [Hy0 Hy1].
  pose proof (columns_within _ _ z (y + 1) Hbt Hz ltac:(lia)) as [Hy2 Hy3].
  set (dx := (toQ (sub (bb_right b) (bb_left b)) / 2 ^ z)%Q) in *.
  set (dy := (toQ (sub (bb_top b) (bb_bottom b)) / 2 ^ z)%Q) in *.
  assert (Hw : (xindex z b
                  (py_max (bb_left b)
                     (add (bb_left b) (mul (Int x) (Float dx))))
                == inject_Z x)%Q).
  { apply (xindex_of_column b z Hwf).
    rewrite py_max_r; rewrite toQ_add, toQ_mul; cbn [toQ];
      [reflexivity | lra]. }
  assert (He : (xindex z b
                  (py_min (bb_right b)
                     (add (bb_left b) (mul (Int (x + 1)) (Float dx))))
                == inject_Z (x + 1))%Q).
  { apply (xindex_of_column b z Hwf).
    rewrite py_min_r; rewrite toQ_add, toQ_mul; cbn [toQ];
      [reflexivity | lra]. }
  assert (Hs : (yindex z b
                  (py_max (bb_bottom b)
                     (sub (bb_top b) (mul (Int (y + 1)) (Float dy))))
                == inject_Z (y + 1))%Q).
  { apply (yindex_of_row b z Hwf).
    rewrite py_max_r; rewrite toQ_sub, toQ_mul; cbn [toQ];
      [reflexivity | lra]. }
  assert (Hn : (yindex z b
                  (py_min (bb_top b)
                     (sub (bb_top b) (mul (Int y) (Float dy))))
                == inject_Z y)%Q).
  { apply (yindex_of_row b z Hwf).
    rewrite py_min_r; rewrite toQ_sub, toQ_mul; cbn [toQ];
      [reflexivity | lra]. }
  rewrite (Qfloor_of_int _ _ Hw), (Qfloor_of_int _ _ Hn).
  rewrite (snap_comp _ _ He), (snap_comp _ _ Hs).
  rewrite (snap_unique _ x), (snap_unique _ y);
    try (rewrite inject_Z_plus; change (inject_Z 1) with 1%Q; lra).
  replace (Z.max 0 x) with x by lia.
  replace (Z.max 0 y) with y by lia.
  replace (Z.min (x + 1) (2 ^ z)) with (x + 1) by lia.
  replace (Z.min (y + 1) (2 ^ z)) with (y + 1) by lia.
  rewrite !range_one. reflexivity.
Qed.

Lemma tiles_of_tile_bounds_witness :
  well_formed bbox100 /\
  0 <= 2 /\
  0 <= 1 < 2 ^ 2 /\
  0 <= 1 < 2 ^ 2 /\
  exists bb : Bbox,
    bounds [of_tile (Tile 1 1 2 bbox100)] = Return bb /\
    tiles (bb_left bb) (bb_bottom bb) (bb_right bb) (bb_top bb)
      (ZoomInt 2) bbox100 false
    = ([Tile 1 1 2 bbox100], None).
Proof.
  assert (H : well_formed bbox100) by (split; reflexivity).
  repeat (split; [first [exact H | lia] |]).
  apply (tiles_of_tile_bounds bbox100 2 1 1); [exact H | lia ..].
Defined.

(** C2.  The program breaks the exact-bounds property on its own
    arithmetic.  In binary64, on the Web-Mercator extent at zoom 4, the
    west edge of tile [(1, 0)] has index [0.9999999999999994] instead of
    [1]; the nudge is applied to the east and south indices only, so the
    floor is [0] and [tiles] yields tile [(0, 0)] as well. *)
Theorem binary64_tiles_of_tile_bounds_two_tiles :
  exists bb : Binary64.Bbox,
    Binary64.bounds 1 0 4 Binary64.web_mercator = Return bb /\
    Binary64.tiles (Binary64.bb_left bb) (Binary64.bb_bottom bb)
      (Binary64.bb_right bb) (Binary64.bb_top bb) (ZoomInt 4)
      Binary64.web_mercator false
    = ([Binary64.mkWMTSTile 0 0 4 Binary64.web_mercator;
        Binary64.mkWMTSTile 1 0 4 Binary64.web_mercator], None).
Proof.
  eexists. split; [vm_compute; reflexivity |].
  vm_compute. reflexivity.
Qed.

(** *** The order of the tiles *)

Lemma in_grid (z : Z) (b : Bbox) (is_ js : list Z) (t : WMTSTile) :
  In t (grid z b is_ js) ->
  exists i j, In i is_ /\ In j js /\ t = Tile i j z b.
Proof.
  unfold grid. intro H. apply in_flat_map in H.
  destruct H as [i [Hi H]]. apply in_map_iff in H.
  destruct H as [j [<- Hj]]. exists i, j. auto.
Qed.

Lemma column_sorted (i z : Z) (b : Bbox) (js : list Z) :
  StronglySorted Z.lt js ->
  StronglySorted column_major_before (map (fun j => Tile i j z b) js).
Proof.
  induction 1 as [|j js Hs IH Hj]; cbn [map]; constructor; [exact IH|].
  apply Forall_forall. intros t Ht. apply in_map_iff in Ht.
  destruct Ht as [j' [<- Hj']]. apply cmb_row.
  rewrite Forall_forall in Hj. apply Hj, Hj'.
Qed.

Lemma grid_sorted (z : Z) (b : Bbox) (is_ js : list Z) :
  StronglySorted Z.lt is_ -> StronglySorted Z.lt js ->
  StronglySorted column_major_before (grid z b is_ js).
Proof.
  intros His Hjs. induction His as [|i is_ His IH Hi]; [constructor|].
  change (grid z b (i :: is_) js)
    with (map (fun j => Tile i j z b) js ++ grid z b is_ js).
  apply sorted_app; [apply column_sorted, Hjs | exact IH |].
  intros t1 t2 H1 H2. apply in_map_iff in H1. destruct H1 as [j [<- _]].
  apply in_grid in H2. destruct H2 as [i' [j' [Hi' [_ ->]]]].
  apply cmb_column. rewrite Forall_forall in Hi. apply Hi, Hi'.
Qed.

Lemma grid_zoom (z : Z) (b : Bbox) (is_ js : list Z) :
  Forall (fun t => t_z t = PyNum (Int z)) (grid z b is_ js).
Proof.
  apply Forall_forall. intros t Ht. apply in_grid in Ht.
  destruct Ht as [i [j [_ [_ ->]]]]. reflexivity.
Qed.

Create HintDb grid.
#[local] Hint Resolve range_sorted grid_zoom grid_sorted : grid.

(** Whatever the input, and whether or not it raises, one zoom level
    yields a grid of ascending columns and rows. *)
Lemma tiles_zoom_yields_grid (w s e n : number) (z : Z) (b : Bbox) :
  exists is_ js : list Z,
    StronglySorted Z.lt is_ /\ StronglySorted Z.lt js /\
    fst (tiles_zoom w s e n z b) = grid z b is_ js.
Proof.
  assert (Hnil : exists is_ js : list Z,
             StronglySorted Z.lt is_ /\ StronglySorted Z.lt js /\
             @nil WMTSTile = grid z b is_ js).
  { exists [], []. repeat split; constructor. }
  unfold tiles_zoom.
  destruct (_tile w s z b false) as [[[llx lly] llz]|ex];
    cbn [then_ fst]; [|exact Hnil].
  destruct (mod_ lly (Int 1)) as [lly_mod|ex]; cbn [then_ fst]; [|exact Hnil].
  destruct (truediv epsilon (Int 10)) as [eps10|ex];
    cbn [then_ fst]; [|exact Hnil].
  destruct (_tile e n z b false) as [[[urx ury] urz]|ex];
    cbn [then_ fst]; [|exact Hnil].
  destruct (mod_ urx (Int 1)) as [urx_mod|ex]; cbn [then_ fst]; [|exact Hnil].
  match goal with
  | |- context [then_ (py_range ?lo ?hi) _] =>
      destruct (py_range lo hi) as [is_|ex] eqn:Ei;
        cbn [then_ fst]; [|exact Hnil]
  end.
  match goal with
  | |- context [then_ (py_range ?lo ?hi) _] =>
      destruct (py_range lo hi) as [js|ex] eqn:Ej
  end.
  - rewrite for_columns. exists is_, js.
    split; [eapply py_range_sorted, Ei |].
    split; [eapply py_range_sorted, Ej | reflexivity].
  - cbn [then_]. rewrite for_raise. exact Hnil.
Qed.

(** C3, as stated, fails: on the full extent at zoom 1 the second tile
    yielded is [(0, 1)], below the first, not [(1, 0)] to its right. *)
Lemma tiles_not_row_major :
  fst (tiles (Int (-100)) (Int (-100)) (Int 100) (Int 100) (ZoomInt 1)
         bbox100 false)
  = [Tile 0 0 1 bbox100; Tile 0 1 1 bbox100;
     Tile 1 0 1 bbox100; Tile 1 1 1 bbox100] /\
  ~ zoom_by_zoom row_major_before (zoom_list (ZoomInt 1))
      (fst (tiles (Int (-100)) (Int (-100)) (Int 100) (Int 100) (ZoomInt 1)
              bbox100 false)).
Proof.
  assert (H : fst (tiles (Int (-100)) (Int (-100)) (Int 100) (Int 100)
                     (ZoomInt 1) bbox100 false)
              = [Tile 0 0 1 bbox100; Tile 0 1 1 bbox100;
                 Tile 1 0 1 bbox100; Tile 1 1 1 bbox100])
    by (vm_compute; reflexivity).
  split; [exact H|]. rewrite H. clear H.
  intros [blocks [Hc HF]]. cbn [zoom_list] in HF.
  destruct blocks as [|blk [|blk' blocks]].
  - discriminate Hc.
  - cbn [concat] in Hc. rewrite app_nil_r in Hc. subst blk.
    cbn [length firstn] in HF.
    inversion HF as [|? ? ? ? [_ Hs] _]; subst.
    inversion Hs as [|? ? Hs' _]; subst.
    inversion Hs' as [|? ? _ Hall]; subst.
    inversion Hall as [|? ? Hbad _]; subst.
    unfold Tile in Hbad. inversion Hbad; subst; lia.
  - cbn [length firstn] in HF.
    inversion HF as [|? ? ? ? _ HF']; subst. inversion HF'.
Qed.

(** C3, amended.  For each requested zoom in turn, [tiles] emits the
    tiles column by column ([x] ascending), with the row index [y]
    ascending within each column, before any tile of the next requested
    zoom. *)
Theorem tiles_column_major :
  forall (west south east north : number) (zooms : zooms_arg) (b : Bbox)
         (truncate : bool),
  zoom_by_zoom column_major_before (zoom_list zooms)
    (fst (tiles west south east north zooms b truncate)).
Proof.
  intros west south east north zooms b [|].
  - exists []. split; [reflexivity | constructor].
  - unfold tiles. rewrite for_single. fold (zoom_list zooms).
    set (body := fun z : Z => tiles_zoom _ _ _ _ z b).
    destruct (for_blocks (zoom_list zooms) body) as [k [Hk ->]].
    exists (map (fun z => fst (body z)) (firstn k (zoom_list zooms))).
    split; [reflexivity|].
    rewrite length_map, length_firstn, Nat.min_l by exact Hk.
    apply Forall2_map_r. intro z. unfold body.
    destruct (tiles_zoom_yields_grid
                (py_max (bb_left b) west) (py_max (bb_bottom b) south)
                (py_min (bb_right b) east) (py_min (bb_top b) north) z b)
      as [is_ [js [His [Hjs ->]]]].
    split; auto with grid.
Qed.

(** * Further properties of the code *)

(** ** [truncate_xy] *)

(** One axis of [truncate_xy]: the value, or the bound it passes. *)
Lemma clamp_axis_cases (x lo hi : number) :
  let x' := if gt x hi then hi else if lt x lo then lo else x in
  ((toQ hi < toQ x)%Q /\ x' = hi) \/
  ((toQ x <= toQ hi)%Q /\ (toQ x < toQ lo)%Q /\ x' = lo) \/
  ((toQ lo <= toQ x <= toQ hi)%Q /\ x' = x).
Proof.
  cbv zeta. unfold gt.
  destruct (lt hi x) eqn:E1.
  - left. apply lt_true in E1. auto.
  - apply lt_false in E1. destruct (lt x lo) eqn:E2.
    + right; left. apply lt_true in E2. auto.
    + right; right. apply lt_false in E2. auto.
Qed.

(** X1.  On bounds with [left <= right] and [bottom <= top], the point
    returned by [truncate_xy] lies within the bounds, wherever the given
    point was. *)
Theorem truncate_xy_within_bounds :
  forall (x y : number) (b : Bbox),
  (toQ (bb_left b) <= toQ (bb_right b))%Q ->
  (toQ (bb_bottom b) <= toQ (bb_top b))%Q ->
  (toQ (bb_left b) <= toQ (fst (truncate_xy x y b)) <= toQ (bb_right b))%Q /\
  (toQ (bb_bottom b) <= toQ (snd (truncate_xy x y b)) <= toQ (bb_top b))%Q.
Proof.
  intros x y b Hx Hy. unfold truncate_xy. cbn [fst snd].
  pose proof (clamp_axis_cases x (bb_left b) (bb_right b)) as Cx.
  pose proof (clamp_axis_cases y (bb_bottom b) (bb_top b)) as Cy.
  cbv zeta in Cx, Cy.
  destruct Cx as [[? ->]|[[? [? ->]]|[? ->]]];
    destruct Cy as [[? ->]|[[? [? ->]]|[? ->]]]; lra.
Qed.

Lemma truncate_xy_within_bounds_witness :
  (toQ (bb_left bbox100) <= toQ (bb_right bbox100))%Q /\
  (toQ (bb_bottom bbox100) <= toQ (bb_top bbox100))%Q /\
  (toQ (bb_left bbox100)
   <= toQ (fst (truncate_xy (Int 250) (Float (-1 # 2)) bbox100))
   <= toQ (bb_right bbox100))%Q /\
  (toQ (bb_bottom bbox100)
   <= toQ (snd (truncate_xy (Int 250) (Float (-1 # 2)) bbox100))
   <= toQ (bb_top bbox100))%Q.
Proof.
  assert (H1 : (toQ (bb_left bbox100) <= toQ (bb_right bbox100))%Q)
    by (vm_compute; discriminate).
  assert (H2 : (toQ (bb_bottom bbox100) <= toQ (bb_top bbox100))%Q)
    by (vm_compute; discriminate).
  split; [exact H1 | split; [exact H2 |]].
  apply (truncate_xy_within_bounds (Int 250) (Float (-1 # 2)) bbox100 H1 H2).
Defined.

(** X2.  [truncate_xy] returns a point that already lies within the
    bounds as it is, the same two numbers. *)
Theorem truncate_xy_inside_unchanged :
  forall (x y : number) (b : Bbox),
  (toQ (bb_left b) <= toQ x <= toQ (bb_right b))%Q ->
  (toQ (bb_bottom b) <= toQ y <= toQ (bb_top b))%Q ->
  truncate_xy x y b = (x, y).
Proof.
  intros x y b Hx Hy. unfold truncate_xy.
  pose proof (clamp_axis_cases x (bb_left b) (bb_right b)) as Cx.
  pose proof (clamp_axis_cases y (bb_bottom b) (bb_top b)) as Cy.
  cbv zeta in Cx, Cy.
  destruct Cx as [[? ->]|[[? [? ->]]|[? ->]]];
    destruct Cy as [[? ->]|[[? [? ->]]|[? ->]]];
    first [reflexivity | exfalso; lra].
Qed.

Lemma truncate_xy_inside_unchanged_witness :
  (toQ (bb_left bbox100) <= toQ (Int 100) <= toQ (bb_right bbox100))%Q /\
  (toQ (bb_bottom bbox100) <= toQ (Float (1 # 3)) <= toQ (bb_top bbox100))%Q /\
  truncate_xy (Int 100) (Float (1 # 3)) bbox100 = (Int 100, Float (1 # 3)).
Proof.
  assert (H1 : (toQ (bb_left bbox100) <= toQ (Int 100)
                <= toQ (bb_right bbox100))%Q)
    by (split; vm_compute; discriminate).
  assert (H2 : (toQ (bb_bottom bbox100) <= toQ (Float (1 # 3))
                <= toQ (bb_top bbox100))%Q)
    by (split; vm_compute; discriminate).
  split; [exact H1 | split; [exact H2 |]].
  apply (truncate_xy_inside_unchanged (Int 100) (Float (1 # 3)) bbox100 H1 H2).
Defined.

(** X3.  On bounds with [left <= right] and [bottom <= top],
    [truncate_xy] is idempotent: truncating a truncated point changes
    nothing. *)
Theorem truncate_xy_idempotent :
  forall (x y : number) (b : Bbox),
  (toQ (bb_left b) <= toQ (bb_right b))%Q ->
  (toQ (bb_bottom b) <= toQ (bb_top b))%Q ->
  truncate_xy (fst (truncate_xy x y b)) (snd (truncate_xy x y b)) b
  = truncate_xy x y b.
Proof.
  intros x y b Hx Hy.
  pose proof (clamp_axis_cases x (bb_left b) (bb_right b)) as Cx.
  pose proof (clamp_axis_cases y (bb_bottom b) (bb_top b)) as Cy.
  cbv zeta in Cx, Cy.
  assert (E : truncate_xy x y b =
              (if gt x (bb_right b) then bb_right b
               else if lt x (bb_left b) then bb_left b else x,
               if gt y (bb_top b) then bb_top b
               else if lt y (bb_bottom b) then bb_bottom b else y))
    by reflexivity.
  rewrite E. cbn [fst snd].
  destruct Cx as [[? ->]|[[? [? ->]]|[? ->]]];
    destruct Cy as [[? ->]|[[? [? ->]]|[? ->]]];
    apply (f_equal2 pair);
    match goal with
    | |- (if gt ?v ?hi then _ else if lt ?v ?lo then _ else _) = _ =>
        let C := fresh in
        pose proof (clamp_axis_cases v lo hi) as C; cbv zeta in C;
        destruct C as [[? ->]|[[? [? ->]]|[? ->]]];
        first [reflexivity | exfalso; lra]
    end.
Qed.

Lemma truncate_xy_idempotent_witness :
  (toQ (bb_left bbox100) <= toQ (bb_right bbox100))%Q /\
  (toQ (bb_bottom bbox100) <= toQ (bb_top bbox100))%Q /\
  truncate_xy (fst (truncate_xy (Int 250) (Int (-300)) bbox100))
    (snd (truncate_xy (Int 250) (Int (-300)) bbox100)) bbox100
  = truncate_xy (Int 250) (Int (-300)) bbox100.
Proof.
  assert (H1 : (toQ (bb_left bbox100) <= toQ (bb_right bbox100))%Q)
    by (vm_compute; discriminate).
  assert (H2 : (toQ (bb_bottom bbox100) <= toQ (bb_top bbox100))%Q)
    by (vm_compute; discriminate).
  split; [exact H1 | split; [exact H2 |]].
  apply (truncate_xy_idempotent (Int 250) (Int (-300)) bbox100 H1 H2).
Defined.

(** ** Degenerate provider bounds *)

Lemma tile_size_zero (lo hi : number) (z : Z) :
  (toQ (sub hi lo) / 2 ^ z == 0)%Q <-> (toQ lo == toQ hi)%Q.
Proof.
  pose proof (pow2_pos z) as Hp. rewrite toQ_sub. split; intro H.
  - assert (E : (toQ hi - toQ lo == (toQ hi - toQ lo) / 2 ^ z * 2 ^ z)%Q)
      by (field; lra).
    rewrite H in E. lra.
  - rewrite H. field. lra.
Qed.

(** [_tile] on bounds of some width and height: the two indices. *)
Lemma _tile_nondegenerate x y z b tr :
  ~ (toQ (bb_left b) == toQ (bb_right b))%Q ->
  ~ (toQ (bb_bottom b) == toQ (bb_top b))%Q ->
  _tile x y z b tr = Return (Float (xindex z b x), Float (yindex z b y), z).
Proof.
  intros Hx Hy. unfold _tile. rewrite !truediv_pow2f. cbn [bind].
  rewrite !truediv_Return; [reflexivity| |]; cbn [toQ]; intro H;
    apply tile_size_zero in H; contradiction.
Qed.

(** [_tile] on bounds of no width or no height: the division by the tile
    size raises. *)
Lemma _tile_degenerate x y z b tr :
  (toQ (bb_left b) == toQ (bb_right b))%Q \/
  (toQ (bb_bottom b) == toQ (bb_top b))%Q ->
  _tile x y z b tr = Raise ZeroDivisionError.
Proof.
  intro H. unfold _tile. rewrite !truediv_pow2f. cbn [bind].
  unfold truediv at 1. cbn [toQ].
  destruct (Qeq_bool (toQ (sub (bb_right b) (bb_left b)) / 2 ^ z) 0) eqn:Ex;
    [reflexivity|].
  cbn [bind]. unfold truediv. cbn [toQ].
  destruct (Qeq_bool (toQ (sub (bb_top b) (bb_bottom b)) / 2 ^ z) 0) eqn:Ey;
    [reflexivity|].
  exfalso. destruct H as [H|H]; apply tile_size_zero with (z := z) in H;
    apply Qeq_bool_iff in H; congruence.
Qed.

(** X4.  Computed over exact arithmetic, [tile] raises
    [ZeroDivisionError] exactly when the provider bounds have no width or
    no height ([left = right] or [bottom = top]), and returns a tile
    exactly when they have both; no other exception leaves it, whatever
    the point, the zoom and the [truncate] flag. *)
Theorem tile_raises_iff_degenerate :
  forall (x y : number) (z : Z) (b : Bbox) (truncate : bool),
  (tile x y z b truncate = Raise ZeroDivisionError <->
   ((toQ (bb_left b) == toQ (bb_right b))%Q \/
    (toQ (bb_bottom b) == toQ (bb_top b))%Q)) /\
  ((exists t : WMTSTile, tile x y z b truncate = Return t) <->
   ~ ((toQ (bb_left b) == toQ (bb_right b))%Q \/
      (toQ (bb_bottom b) == toQ (bb_top b))%Q)).
Proof.
  intros x y z b tr.
  destruct (Qeq_dec (toQ (bb_left b)) (toQ (bb_right b))) as [Hx|Hx].
  - assert (E : tile x y z b tr = Raise ZeroDivisionError).
    { unfold tile. rewrite _tile_degenerate by (left; exact Hx).
      reflexivity. }
    rewrite E. split; split; auto.
    + intros [t Ht]. discriminate.
    + intro H. exfalso. apply H. left. exact Hx.
  - destruct (Qeq_dec (toQ (bb_bottom b)) (toQ (bb_top b))) as [Hy|Hy].
    + assert (E : tile x y z b tr = Raise ZeroDivisionError).
      { unfold tile. rewrite _tile_degenerate by (right; exact Hy).
        reflexivity. }
      rewrite E. split; split; auto.
      * intros [t Ht]. discriminate.
      * intro H. exfalso. apply H. right. exact Hy.
    + unfold tile. rewrite (_tile_nondegenerate _ _ _ _ _ Hx Hy).
      cbn [bind]. split; split.
      * discriminate.
      * intros [H|H]; contradiction.
      * intros _ [H|H]; contradiction.
      * intros _. eexists. reflexivity.
Qed.

(** X5.  On provider bounds with no width or no height, [tiles] asked
    for at least one zoom raises [ZeroDivisionError] before it yields
    anything (computed over exact arithmetic). *)
Theorem tiles_degenerate_bounds_raise :
  forall (west south east north : number) (zooms : zooms_arg) (b : Bbox),
  (toQ (bb_left b) == toQ (bb_right b))%Q \/
  (toQ (bb_bottom b) == toQ (bb_top b))%Q ->
  zoom_list zooms <> [] ->
  tiles west south east north zooms b false = ([], Some ZeroDivisionError).
Proof.
  intros west south east north zooms b Hd Hz.
  unfold tiles. rewrite for_single. fold (zoom_list zooms).
  destruct (zoom_list zooms) as [|z l]; [contradiction|].
  cbn [for_]. unfold tiles_zoom at 1.
  rewrite (_tile_degenerate _ _ _ _ _ Hd). reflexivity.
Qed.

Lemma tiles_degenerate_bounds_raise_witness :
  ((toQ (bb_left (mkBbox (Int 0) (Int 0) (Int 10) (Float 0)))
    == toQ (bb_right (mkBbox (Int 0) (Int 0) (Int 10) (Float 0))))%Q \/
   (toQ (bb_bottom (mkBbox (Int 0) (Int 0) (Int 10) (Float 0)))
    == toQ (bb_top (mkBbox (Int 0) (Int 0) (Int 10) (Float 0))))%Q) /\
  zoom_list (ZoomSeq [3; 4]) <> [] /\
  tiles (Int 1) (Int 0) (Int 2) (Int 0) (ZoomSeq [3; 4])
    (mkBbox (Int 0) (Int 0) (Int 10) (Float 0)) false
  = ([], Some ZeroDivisionError).
Proof.
  assert (H1 : (toQ (bb_left (mkBbox (Int 0) (Int 0) (Int 10) (Float 0)))
                == toQ (bb_right (mkBbox (Int 0) (Int 0) (Int 10) (Float 0))))%Q \/
               (toQ (bb_bottom (mkBbox (Int 0) (Int 0) (Int 10) (Float 0)))
                == toQ (bb_top (mkBbox (Int 0) (Int 0) (Int 10) (Float 0))))%Q)
    by (right; reflexivity).
  assert (H2 : zoom_list (ZoomSeq [3; 4]) <> []) by discriminate.
  split; [exact H1 | split; [exact H2 |]].
  apply (tiles_degenerate_bounds_raise (Int 1) (Int 0) (Int 2) (Int 0)
           (ZoomSeq [3; 4]) (mkBbox (Int 0) (Int 0) (Int 10) (Float 0)) H1 H2).
Defined.

(** ** [_tile] and [ul] are inverse to each other *)

(** X6.  Computed over exact arithmetic on bounds of positive width
    and height, [_tile] undoes [ul]: the indices [_tile] gives for the
    point [ul(x, y, z, b)] are [x] and [y] again, fractional or not, and
    the zoom is passed through. *)
Theorem tile_index_of_ul :
  forall (b : Bbox) (z : Z) (x y : number) (truncate : bool),
  well_formed b ->
  exists (p : XY) (x' y' : number),
    ul [PyNum x; PyNum y; PyNum (Int z); of_bbox b] = Return p /\
    _tile (xy_x p) (xy_y p) z b truncate = Return (x', y', z) /\
    (toQ x' == toQ x)%Q /\ (toQ y' == toQ y)%Q.
Proof.
  intros b z x y tr Hwf. rewrite ul_Return.
  eexists. cbn [xy_x xy_y]. rewrite (_tile_Return b z Hwf).
  do 2 eexists. split; [reflexivity | split; [reflexivity |]].
  destruct Hwf as [Hx Hy].
  pose proof (tile_size_pos _ _ z Hx) as Hdx.
  pose proof (tile_size_pos _ _ z Hy) as Hdy.
  set (dx := (toQ (sub (bb_right b) (bb_left b)) / 2 ^ z)%Q) in *.
  set (dy := (toQ (sub (bb_top b) (bb_bottom b)) / 2 ^ z)%Q) in *.
  cbn [toQ xy_x xy_y]. split.
  - rewrite toQ_sub, toQ_add, toQ_mul. cbn [toQ]. field. lra.
  - rewrite !toQ_sub, toQ_mul. cbn [toQ]. field. lra.
Qed.

Lemma tile_index_of_ul_witness :
  well_formed bbox100 /\
  exists (p : XY) (x' y' : number),
    ul [PyNum (Float (5 # 2)); PyNum (Int 3); PyNum (Int 2); of_bbox bbox100]
      = Return p /\
    _tile (xy_x p) (xy_y p) 2 bbox100 false = Return (x', y', 2) /\
    (toQ x' == toQ (Float (5 # 2)))%Q /\ (toQ y' == toQ (Int 3))%Q.
Proof.
  assert (H : well_formed bbox100) by (split; reflexivity).
  split; [exact H |].
  apply (tile_index_of_ul bbox100 2 (Float (5 # 2)) (Int 3) false H).
Defined.

(** X7.  Computed over exact arithmetic on bounds of positive width
    and height, [ul] undoes [_tile]: the point [ul] gives for the
    fractional indices of a point is that point. *)
Theorem ul_of_tile_index :
  forall (b : Bbox) (z : Z) (x y : number) (truncate : bool),
  well_formed b ->
  exists (i j : number) (p : XY),
    _tile x y z b truncate = Return (i, j, z) /\
    ul [PyNum i; PyNum j; PyNum (Int z); of_bbox b] = Return p /\
    (toQ (xy_x p) == toQ x)%Q /\ (toQ (xy_y p) == toQ y)%Q.
Proof.
  intros b z x y tr Hwf. rewrite (_tile_Return b z Hwf).
  do 2 eexists. rewrite ul_Return.
  eexists. split; [reflexivity | split; [reflexivity |]].
  destruct Hwf as [Hx Hy].
  pose proof (tile_size_pos _ _ z Hx) as Hdx.
  pose proof (tile_size_pos _ _ z Hy) as Hdy.
  set (dx := (toQ (sub (bb_right b) (bb_left b)) / 2 ^ z)%Q) in *.
  set (dy := (toQ (sub (bb_top b) (bb_bottom b)) / 2 ^ z)%Q) in *.
  cbn [xy_x xy_y]. split.
  - rewrite toQ_add, toQ_mul. cbn [toQ]. rewrite toQ_sub. field. lra.
  - rewrite toQ_sub, toQ_mul. cbn [toQ]. rewrite toQ_sub. field. lra.
Qed.

Lemma ul_of_tile_index_witness :
  well_formed bbox100 /\
  exists (i j : number) (p : XY),
    _tile (Int 30) (Float (-7 # 2)) 3 bbox100 false = Return (i, j, 3) /\
    ul [PyNum i; PyNum j; PyNum (Int 3); of_bbox bbox100] = Return p /\
    (toQ (xy_x p) == toQ (Int 30))%Q /\
    (toQ (xy_y p) == toQ (Float (-7 # 2)))%Q.
Proof.
  assert (H : well_formed bbox100) by (split; reflexivity).
  split; [exact H |].
  apply (ul_of_tile_index bbox100 3 (Int 30) (Float (-7 # 2)) false H).
Defined.

(** ** Indices and coordinates *)

Lemma Qdiv_le_iff (a b c : Q) :
  (0 < c)%Q -> (a <= b / c <-> a * c <= b)%Q.
Proof.
  intro Hc. split; intro H.
  - destruct (Qlt_le_dec b (a * c)) as [Hlt|Hle]; [|exact Hle].
    exfalso. apply Qlt_shift_div_r in Hlt; [|exact Hc].
    apply (Qlt_not_le _ _ Hlt H).
  - apply Qle_shift_div_l; assumption.
Qed.

Lemma Qdiv_lt_iff (a b c : Q) :
  (0 < c)%Q -> (b / c < a <-> b < a * c)%Q.
Proof.
  intro Hc. split; intro H.
  - destruct (Qlt_le_dec b (a * c)) as [Hlt|Hle]; [exact Hlt|].
    exfalso. apply Qle_shift_div_l in Hle; [|exact Hc].
    apply (Qlt_not_le _ _ H Hle).
  - apply Qlt_shift_div_r; assumption.
Qed.

Lemma Qfloor_ge_iff (k : Z) (q : Q) : k <= Qfloor q <-> (inject_Z k <= q)%Q.
Proof.
  pose proof (Qfloor_le q) as H1. pose proof (Qlt_floor q) as H2.
  split; intro H.
  - rewrite Zle_Qle in H. lra.
  - assert (k < Qfloor q + 1); [|lia].
    rewrite Zlt_Qlt. lra.
Qed.

Lemma Qfloor_lt_iff (k : Z) (q : Q) : Qfloor q < k <-> (q < inject_Z k)%Q.
Proof.
  pose proof (Qfloor_ge_iff k q) as H. split; intro H1.
  - apply Qnot_le_lt. intro H2. apply H in H2. lia.
  - apply Z.nle_gt. intro H2. apply H in H2.
    apply (Qlt_not_le _ _ H1 H2).
Qed.

Lemma tile_width_pos (z : Z) (b : Bbox) :
  well_formed b -> (0 < tile_width z b)%Q.
Proof. intros [H _]. apply tile_size_pos, H. Qed.

Lemma tile_height_pos (z : Z) (b : Bbox) :
  well_formed b -> (0 < tile_height z b)%Q.
Proof. intros [_ H]. apply tile_size_pos, H. Qed.

(** The tiles of a level span the provider extent. *)
Lemma tile_width_total (z : Z) (b : Bbox) :
  0 <= z ->
  (inject_Z (2 ^ z) * tile_width z b == toQ (bb_right b) - toQ (bb_left b))%Q.
Proof.
  intro Hz. unfold tile_width. rewrite (inject_pow2 _ Hz), toQ_sub.
  field. pow2_nonzero z.
Qed.

Lemma tile_height_total (z : Z) (b : Bbox) :
  0 <= z ->
  (inject_Z (2 ^ z) * tile_height z b == toQ (bb_top b) - toQ (bb_bottom b))%Q.
Proof.
  intro Hz. unfold tile_height. rewrite (inject_pow2 _ Hz), toQ_sub.
  field. pow2_nonzero z.
Qed.

(** A tile of the next level has half the size. *)
Lemma tile_width_succ (z : Z) (b : Bbox) :
  (2 * tile_width (z + 1) b == tile_width z b)%Q.
Proof.
  unfold tile_width. rewrite Qpower_plus by discriminate.
  change (2 ^ 1)%Q with 2%Q. field. pow2_nonzero z.
Qed.

Lemma tile_height_succ (z : Z) (b : Bbox) :
  (2 * tile_height (z + 1) b == tile_height z b)%Q.
Proof.
  unfold tile_height. rewrite Qpower_plus by discriminate.
  change (2 ^ 1)%Q with 2%Q. field. pow2_nonzero z.
Qed.

Lemma xindex_ge (z : Z) (b : Bbox) (x : number) (q : Q) :
  well_formed b ->
  (q <= xindex z b x <-> toQ (bb_left b) + q * tile_width z b <= toQ x)%Q.
Proof.
  intro Hwf. pose proof (tile_width_pos z b Hwf) as Hd.
  unfold xindex. fold (tile_width z b).
  rewrite (Qdiv_le_iff _ _ _ Hd), toQ_sub.
  set (d := tile_width z b) in *. split; intro; lra.
Qed.

Lemma xindex_lt (z : Z) (b : Bbox) (x : number) (q : Q) :
  well_formed b ->
  (xindex z b x < q <-> toQ x < toQ (bb_left b) + q * tile_width z b)%Q.
Proof.
  intro Hwf. pose proof (tile_width_pos z b Hwf) as Hd.
  unfold xindex. fold (tile_width z b).
  rewrite (Qdiv_lt_iff _ _ _ Hd), toQ_sub.
  set (d := tile_width z b) in *. split; intro; lra.
Qed.

Lemma yindex_ge (z : Z) (b : Bbox) (y : number) (q : Q) :
  well_formed b ->
  (q <= yindex z b y <-> toQ y <= toQ (bb_top b) - q * tile_height z b)%Q.
Proof.
  intro Hwf. pose proof (tile_height_pos z b Hwf) as Hd.
  unfold yindex. fold (tile_height z b).
  rewrite (Qdiv_le_iff _ _ _ Hd), toQ_sub.
  set (d := tile_height z b) in *. split; intro; lra.
Qed.

Lemma yindex_lt (z : Z) (b : Bbox) (y : number) (q : Q) :
  well_formed b ->
  (yindex z b y < q <-> toQ (bb_top b) - q * tile_height z b < toQ y)%Q.
Proof.
  intro Hwf. pose proof (tile_height_pos z b Hwf) as Hd.
  unfold yindex. fold (tile_height z b).
  rewrite (Qdiv_lt_iff _ _ _ Hd), toQ_sub.
  set (d := tile_height z b) in *. split; intro; lra.
Qed.

(** [tile] on bounds of positive width and height: the floors of the two
    indices. *)
Lemma tile_Return (b : Bbox) (z : Z) (x y : number) (tr : bool) :
  well_formed b ->
  tile x y z b tr =
  Return (Tile (Qfloor (xindex z b x)) (Qfloor (yindex z b y)) z b).
Proof.
  intro Hwf. unfold tile. rewrite (_tile_Return b z Hwf). reflexivity.
Qed.

(** The four edges of the box of a tile. *)
Lemma bounds_edges (b : Bbox) (z i j : Z) :
  exists bb : Bbox,
    bounds [PyNum (Int i); PyNum (Int j); PyNum (Int z); of_bbox b]
      = Return bb /\
    (toQ (bb_left bb) == toQ (bb_left b) + inject_Z i * tile_width z b)%Q /\
    (toQ (bb_right bb)
     == toQ (bb_left b) + inject_Z (i + 1) * tile_width z b)%Q /\
    (toQ (bb_bottom bb)
     == toQ (bb_top b) - inject_Z (j + 1) * tile_height z b)%Q /\
    (toQ (bb_top bb) == toQ (bb_top b) - inject_Z j * tile_height z b)%Q.
Proof.
  rewrite bounds_Return. eexists. split; [reflexivity|].
  cbn [bb_left bb_right bb_bottom bb_top add].
  fold (tile_width z b). fold (tile_height z b).
  repeat split.
  - rewrite toQ_add, toQ_mul. reflexivity.
  - rewrite toQ_add, toQ_mul. reflexivity.
  - rewrite toQ_sub, toQ_mul. reflexivity.
  - rewrite toQ_sub, toQ_mul. reflexivity.
Qed.

Lemma xindex_succ (z : Z) (b : Bbox) (x : number) :
  well_formed b -> (xindex (z + 1) b x == 2 * xindex z b x)%Q.
Proof.
  intro Hwf. pose proof (tile_width_pos (z + 1) b Hwf) as Hd.
  unfold xindex. fold (tile_width z b). fold (tile_width (z + 1) b).
  rewrite <- (tile_width_succ z b).
  set (d := tile_width (z + 1) b) in *. field. lra.
Qed.

Lemma yindex_succ (z : Z) (b : Bbox) (y : number) :
  well_formed b -> (yindex (z + 1) b y == 2 * yindex z b y)%Q.
Proof.
  intro Hwf. pose proof (tile_height_pos (z + 1) b Hwf) as Hd.
  unfold yindex. fold (tile_height z b). fold (tile_height (z + 1) b).
  rewrite <- (tile_height_succ z b).
  set (d := tile_height (z + 1) b) in *. field. lra.
Qed.

Lemma Qfloor_double (q : Q) : Qfloor (2 * q) / 2 = Qfloor q.
Proof.
  pose proof (Qfloor_le q) as H1. pose proof (Qlt_floor q) as H2.
  rewrite inject_Z_plus in H2. change (inject_Z 1) with 1%Q in H2.
  assert (Hlo : 2 * Qfloor q <= Qfloor (2 * q)).
  { apply Qfloor_ge_iff. rewrite inject_Z_mult.
    change (inject_Z 2) with 2%Q. lra. }
  assert (Hhi : Qfloor (2 * q) < 2 * Qfloor q + 2).
  { apply Qfloor_lt_iff. rewrite inject_Z_plus, inject_Z_mult.
    change (inject_Z 2) with 2%Q. lra. }
  symmetry.
  apply (Z.div_unique _ 2 _ (Qfloor (2 * q) - 2 * Qfloor q)); lia.
Qed.

(** ** The tile of a point *)

(** X8.  Computed over exact arithmetic on bounds of positive width
    and height, the tile that [tile] returns for a point is the one whose
    box, as [bounds] gives it, holds the point: [left <= x < right] and
    [bottom < y <= top], every tile owning its left and top edges. *)
Theorem tile_box_contains_point :
  forall (b : Bbox) (z : Z) (x y : number) (truncate : bool),
  well_formed b ->
  exists (i j : Z) (bb : Bbox),
    tile x y z b truncate = Return (Tile i j z b) /\
    bounds [of_tile (Tile i j z b)] = Return bb /\
    (toQ (bb_left bb) <= toQ x < toQ (bb_right bb))%Q /\
    (toQ (bb_bottom bb) < toQ y <= toQ (bb_top bb))%Q.
Proof.
  intros b z x y tr Hwf. rewrite (tile_Return b z x y tr Hwf).
  set (i := Qfloor (xindex z b x)). set (j := Qfloor (yindex z b y)).
  destruct (bounds_edges b z i j) as [bb [Hb [Hl [Hr [Hbo Ht]]]]].
  exists i, j, bb. split; [reflexivity|].
  split; [rewrite bounds_of_tile; exact Hb|].
  rewrite Hl, Hr, Hbo, Ht. repeat split.
  - apply (xindex_ge z b x _ Hwf), Qfloor_le.
  - apply (xindex_lt z b x _ Hwf), Qlt_floor.
  - apply (yindex_lt z b y _ Hwf), Qlt_floor.
  - apply (yindex_ge z b y _ Hwf), Qfloor_le.
Qed.

Lemma tile_box_contains_point_witness :
  well_formed bbox100 /\
  exists (i j : Z) (bb : Bbox),
    tile (Int 30) (Float (-7 # 2)) 3 bbox100 false
      = Return (Tile i j 3 bbox100) /\
    bounds [of_tile (Tile i j 3 bbox100)] = Return bb /\
    (toQ (bb_left bb) <= toQ (Int 30) < toQ (bb_right bb))%Q /\
    (toQ (bb_bottom bb) < toQ (Float (-7 # 2)) <= toQ (bb_top bb))%Q.
Proof.
  assert (H : well_formed bbox100) by (split; reflexivity).
  split; [exact H |].
  apply (tile_box_contains_point bbox100 3 (Int 30) (Float (-7 # 2)) false H).
Defined.

(** X9.  [tile] checks nothing, so its indices may fall outside the
    pyramid.  Computed over exact arithmetic on bounds of positive width
    and height and a zoom [z >= 0], the column is in [0, 2^z) exactly when
    [left <= x < right], and the row exactly when [bottom < y <= top]. *)
Theorem tile_in_range_iff_inside :
  forall (b : Bbox) (z : Z) (x y : number) (truncate : bool),
  well_formed b ->
  0 <= z ->
  exists i j : Z,
    tile x y z b truncate = Return (Tile i j z b) /\
    (0 <= i < 2 ^ z <-> (toQ (bb_left b) <= toQ x < toQ (bb_right b))%Q) /\
    (0 <= j < 2 ^ z <-> (toQ (bb_bottom b) < toQ y <= toQ (bb_top b))%Q).
Proof.
  intros b z x y tr Hwf Hz. rewrite (tile_Return b z x y tr Hwf).
  do 2 eexists. split; [reflexivity|].
  rewrite (Qfloor_ge_iff 0), (Qfloor_lt_iff (2 ^ z)).
  rewrite (Qfloor_ge_iff 0), (Qfloor_lt_iff (2 ^ z)).
  rewrite (xindex_ge z b x _ Hwf), (xindex_lt z b x _ Hwf).
  rewrite (yindex_ge z b y _ Hwf), (yindex_lt z b y _ Hwf).
  rewrite (tile_width_total z b Hz), (tile_height_total z b Hz).
  change (inject_Z 0) with 0%Q.
  split; split; intros [H1 H2]; split; lra.
Qed.

Lemma tile_in_range_iff_inside_witness :
  well_formed bbox100 /\
  0 <= 3 /\
  exists i j : Z,
    tile (Int 130) (Int 100) 3 bbox100 false = Return (Tile i j 3 bbox100) /\
    (0 <= i < 2 ^ 3 <->
     (toQ (bb_left bbox100) <= toQ (Int 130) < toQ (bb_right bbox100))%Q) /\
    (0 <= j < 2 ^ 3 <->
     (toQ (bb_bottom bbox100) < toQ (Int 100) <= toQ (bb_top bbox100))%Q).
Proof.
  assert (H : well_formed bbox100) by (split; reflexivity).
  assert (Hz : 0 <= 3) by lia.
  split; [exact H | split; [exact Hz |]].
  apply (tile_in_range_iff_inside bbox100 3 (Int 130) (Int 100) false H Hz).
Defined.

(** X10.  Computed over exact arithmetic, the tile of a point at zoom
    [z + 1] is a child of its tile at zoom [z]: halving its column and
    row (floor division) gives the column and row at zoom [z]. *)
Theorem tile_child_of_parent :
  forall (b : Bbox) (z : Z) (x y : number) (truncate : bool),
  well_formed b ->
  exists i j i' j' : Z,
    tile x y z b truncate = Return (Tile i j z b) /\
    tile x y (z + 1) b truncate = Return (Tile i' j' (z + 1) b) /\
    i' / 2 = i /\ j' / 2 = j.
Proof.
  intros b z x y tr Hwf.
  rewrite (tile_Return b z x y tr Hwf), (tile_Return b (z + 1) x y tr Hwf).
  do 4 eexists. split; [reflexivity | split; [reflexivity |]].
  assert (Ex : Qfloor (xindex (z + 1) b x) = Qfloor (2 * xindex z b x))
    by (rewrite (xindex_succ z b x Hwf); reflexivity).
  assert (Ey : Qfloor (yindex (z + 1) b y) = Qfloor (2 * yindex z b y))
    by (rewrite (yindex_succ z b y Hwf); reflexivity).
  rewrite Ex, Ey. split; apply Qfloor_double.
Qed.

Lemma tile_child_of_parent_witness :
  well_formed bbox100 /\
  exists i j i' j' : Z,
    tile (Int 30) (Float (-7 # 2)) 3 bbox100 false
      = Return (Tile i j 3 bbox100) /\
    tile (Int 30) (Float (-7 # 2)) (3 + 1) bbox100 false
      = Return (Tile i' j' (3 + 1) bbox100) /\
    i' / 2 = i /\ j' / 2 = j.
Proof.
  assert (H : well_formed bbox100) by (split; reflexivity).
  split; [exact H |].
  apply (tile_child_of_parent bbox100 3 (Int 30) (Float (-7 # 2)) false H).
Defined.

(** ** The box of a tile *)

(** X11.  Computed over exact arithmetic on bounds of positive width
    and height and a zoom [z >= 0], the box of a tile with indices in
    [0, 2^z) lies within the provider bounds. *)
Theorem bounds_within_provider_bounds :
  forall (b : Bbox) (z x y : Z),
  well_formed b ->
  0 <= z ->
  0 <= x < 2 ^ z ->
  0 <= y < 2 ^ z ->
  exists bb : Bbox,
    bounds [PyNum (Int x); PyNum (Int y); PyNum (Int z); of_bbox b]
      = Return bb /\
    (toQ (bb_left b) <= toQ (bb_left bb))%Q /\
    (toQ (bb_right bb) <= toQ (bb_right b))%Q /\
    (toQ (bb_bottom b) <= toQ (bb_bottom bb))%Q /\
    (toQ (bb_top bb) <= toQ (bb_top b))%Q.
Proof.
  intros b z x y Hwf Hz Hx Hy.
  destruct (bounds_edges b z x y) as [bb [Hb [Hl [Hr [Hbo Ht]]]]].
  exists bb. split; [exact Hb|].
  rewrite Hl, Hr, Hbo, Ht. unfold tile_width, tile_height.
  destruct Hwf as [Hlr Hbt].
  pose proof (columns_within _ _ z x Hlr Hz ltac:(lia)) as [Hx0 Hx1].
  pose proof (columns_within _ _ z (x + 1) Hlr Hz ltac:(lia)) as [Hx2 Hx3].
  pose proof (columns_within _ _ z y Hbt Hz ltac:(lia)) as [Hy0 Hy1].
  pose proof (columns_within _ _ z (y + 1) Hbt Hz ltac:(lia)) as [Hy2 Hy3].
  set (dx := (toQ (sub (bb_right b) (bb_left b)) / 2 ^ z)%Q) in *.
  set (dy := (toQ (sub (bb_top b) (bb_bottom b)) / 2 ^ z)%Q) in *.
  repeat split; lra.
Qed.

Lemma bounds_within_provider_bounds_witness :
  well_formed bbox100 /\
  0 <= 2 /\
  0 <= 3 < 2 ^ 2 /\
  0 <= 0 < 2 ^ 2 /\
  exists bb : Bbox,
    bounds [PyNum (Int 3); PyNum (Int 0); PyNum (Int 2); of_bbox bbox100]
      = Return bb /\
    (toQ (bb_left bbox100) <= toQ (bb_left bb))%Q /\
    (toQ (bb_right bb) <= toQ (bb_right bbox100))%Q /\
    (toQ (bb_bottom bbox100) <= toQ (bb_bottom bb))%Q /\
    (toQ (bb_top bb) <= toQ (bb_top bbox100))%Q.
Proof.
  assert (H : well_formed bbox100) by (split; reflexivity).
  repeat (split; [first [exact H | lia] |]).
  apply (bounds_within_provider_bounds bbox100 2 3 0); [exact H | lia ..].
Defined.

(** X12.  The pyramid is a quadtree.  Computed over exact arithmetic,
    for every tile [(x, y, z)] the tiles [(2x, 2y)] and [(2x+1, 2y+1)] of
    zoom [z + 1] are its top-left and bottom-right quarters: they share
    the parent's top-left and bottom-right corners and meet at its
    centre. *)
Theorem bounds_children_quarters :
  forall (b : Bbox) (z x y : Z),
  exists p c00 c11 : Bbox,
    bounds [PyNum (Int x); PyNum (Int y); PyNum (Int z); of_bbox b]
      = Return p /\
    bounds [PyNum (Int (2 * x)); PyNum (Int (2 * y)); PyNum (Int (z + 1));
            of_bbox b] = Return c00 /\
    bounds [PyNum (Int (2 * x + 1)); PyNum (Int (2 * y + 1));
            PyNum (Int (z + 1)); of_bbox b] = Return c11 /\
    (toQ (bb_left c00) == toQ (bb_left p))%Q /\
    (toQ (bb_top c00) == toQ (bb_top p))%Q /\
    (toQ (bb_right c11) == toQ (bb_right p))%Q /\
    (toQ (bb_bottom c11) == toQ (bb_bottom p))%Q /\
    (2 * toQ (bb_right c00) == toQ (bb_left p) + toQ (bb_right p))%Q /\
    (2 * toQ (bb_bottom c00) == toQ (bb_bottom p) + toQ (bb_top p))%Q /\
    (toQ (bb_left c11) == toQ (bb_right c00))%Q /\
    (toQ (bb_top c11) == toQ (bb_bottom c00))%Q.
Proof.
  intros b z x y.
  destruct (bounds_edges b z x y) as [p [Hp [Hl [Hr [Hbo Ht]]]]].
  destruct (bounds_edges b (z + 1) (2 * x) (2 * y))
    as [c00 [Hc00 [Hl0 [Hr0 [Hbo0 Ht0]]]]].
  destruct (bounds_edges b (z + 1) (2 * x + 1) (2 * y + 1))
    as [c11 [Hc11 [Hl1 [Hr1 [Hbo1 Ht1]]]]].
  exists p, c00, c11.
  split; [exact Hp | split; [exact Hc00 | split; [exact Hc11 |]]].
  rewrite Hl, Hr, Hbo, Ht, Hl0, Hr0, Hbo0, Ht0, Hl1, Hr1, Hbo1, Ht1.
  rewrite <- (tile_width_succ z b), <- (tile_height_succ z b).
  rewrite !inject_Z_plus, !inject_Z_mult.
  change (inject_Z 2) with 2%Q. change (inject_Z 1) with 1%Q.
  repeat split; ring.
Qed.

(** ** Which tiles [tiles] yields *)

(** The nudge and the floor together are the floor of the index moved
    down by [epsilon / 10]. *)
Lemma snap_floor (q : Q) : snap q = Qfloor (q - (1 # 10000000000)).
Proof.
  pose proof (Qfloor_le q) as H1. pose proof (Qlt_floor q) as H2.
  rewrite inject_Z_plus in H2. change (inject_Z 1) with 1%Q in H2.
  unfold snap. symmetry.
  destruct (Qle_bool (1 # 10000000000) (q - inject_Z (Qfloor q))) eqn:E.
  - apply Qle_bool_iff in E. apply Qfloor_unique.
    + lra.
    + rewrite inject_Z_plus. change (inject_Z 1) with 1%Q. lra.
  - assert (Hlt : (q - inject_Z (Qfloor q) < 1 # 10000000000)%Q).
    { apply Qnot_le_lt. intro Hle. apply Qle_bool_iff in Hle. congruence. }
    apply Qfloor_unique.
    + unfold Z.sub. rewrite inject_Z_plus, inject_Z_opp.
      change (inject_Z 1) with 1%Q. lra.
    + replace (Qfloor q - 1 + 1) with (Qfloor q) by lia. lra.
Qed.

Lemma snap_ge_iff (k : Z) (q : Q) :
  k <= snap q <-> (inject_Z k + (1 # 10000000000) <= q)%Q.
Proof.
  rewrite snap_floor, Qfloor_ge_iff. split; intro; lra.
Qed.

Lemma in_grid_iff (z : Z) (b : Bbox) (is_ js : list Z) (t : WMTSTile) :
  In t (grid z b is_ js) <->
  exists i j, In i is_ /\ In j js /\ t = Tile i j z b.
Proof.
  split; [apply in_grid|].
  intros [i [j [Hi [Hj ->]]]]. unfold grid. apply in_flat_map.
  exists i. split; [exact Hi|]. apply in_map_iff. exists j. auto.
Qed.

Lemma length_grid (z : Z) (b : Bbox) (is_ js : list Z) :
  length (grid z b is_ js) = (length is_ * length js)%nat.
Proof.
  induction is_ as [|i is_ IH]; [reflexivity|].
  change (grid z b (i :: is_) js)
    with (map (fun j => Tile i j z b) js ++ grid z b is_ js).
  rewrite length_app, length_map, IH. reflexivity.
Qed.

(** A loop in which no iteration raises yields what its iterations yield,
    one after the other. *)
Lemma for_all_return {A T : Type} (l : list A) (body : A -> trace T) :
  (forall a, In a l -> snd (body a) = None) ->
  for_ l body = (flat_map (fun a => fst (body a)) l, None).
Proof.
  induction l as [|a l IH]; intro H; [reflexivity|].
  cbn [for_ flat_map].
  pose proof (H a (or_introl eq_refl)) as Ha.
  destruct (body a) as [ys [e|]]; [discriminate|].
  rewrite IH by (intros a' Ha'; apply H; right; exact Ha').
  reflexivity.
Qed.

(** On bounds of positive width and height and non-negative zooms, no
    iteration of [tiles] raises: the result is the tiles of each zoom in
    turn. *)
Lemma tiles_flat_map (west south east north : number) (zooms : zooms_arg)
  (b : Bbox) :
  well_formed b ->
  Forall (fun z => 0 <= z) (zoom_list zooms) ->
  tiles west south east north zooms b false =
  (flat_map
     (fun z =>
        fst (tiles_zoom (py_max (bb_left b) west) (py_max (bb_bottom b) south)
               (py_min (bb_right b) east) (py_min (bb_top b) north) z b))
     (zoom_list zooms),
   None).
Proof.
  intros Hwf Hz. unfold tiles. rewrite for_single. fold (zoom_list zooms).
  apply (for_all_return (zoom_list zooms)
           (fun z => tiles_zoom _ _ _ _ z b)).
  intros z Hin. rewrite Forall_forall in Hz.
  rewrite (tiles_zoom_grid b z Hwf _ _ _ _ (Hz z Hin)). reflexivity.
Qed.

(** The columns [tiles] runs through for a query from [w] to [e]: those
    of the pyramid whose right edge is east of [w] and whose left edge is
    at least [epsilon / 10] tile widths west of [e]. *)
Lemma column_yielded (b : Bbox) (z : Z) (w e : number) (i : Z) :
  well_formed b -> 0 <= z ->
  (Z.max 0 (Qfloor (xindex z b (py_max (bb_left b) w))) <= i
   < Z.min (snap (xindex z b (py_min (bb_right b) e)) + 1) (2 ^ z)
   <->
   0 <= i < 2 ^ z /\
   (toQ w < toQ (bb_left b) + inject_Z (i + 1) * tile_width z b)%Q /\
   (toQ (bb_left b) + inject_Z i * tile_width z b
    + (1 # 10000000000) * tile_width z b <= toQ e)%Q).
Proof.
  intros Hwf Hz.
  pose proof (tile_width_pos z b Hwf) as Hd.
  pose proof (tile_width_total z b Hz) as Ht.
  pose proof (Qfloor_lt_iff (i + 1) (xindex z b (py_max (bb_left b) w))) as A1.
  rewrite (xindex_lt z b _ _ Hwf) in A1.
  pose proof (snap_ge_iff i (xindex z b (py_min (bb_right b) e))) as A2.
  rewrite (xindex_ge z b _ _ Hwf) in A2.
  rewrite inject_Z_plus in *. change (inject_Z 1) with 1%Q in *.
  set (d := tile_width z b) in *.
  set (qi := inject_Z i) in *.
  assert (P1 : 0 <= i -> (0 <= qi * d)%Q).
  { intro H. apply Qmult_le_0_compat; [|lra].
    unfold qi. rewrite Zle_Qle in H. exact H. }
  assert (P2 : i < 2 ^ z -> (qi * d + d <= inject_Z (2 ^ z) * d)%Q).
  { intro H. assert (H' : i + 1 <= 2 ^ z) by lia.
    rewrite Zle_Qle, inject_Z_plus in H'. change (inject_Z 1) with 1%Q in H'.
    fold qi in H'.
    setoid_replace (qi * d + d)%Q with ((qi + 1) * d)%Q by ring.
    apply Qmult_le_compat_r; lra. }
  destruct (py_max_cases (bb_left b) w) as [[Hw1 Hw2]|[Hw1 Hw2]];
    destruct (py_min_cases (bb_right b) e) as [[He1 He2]|[He1 He2]];
    rewrite Hw2 in A1; rewrite He2 in A2;
    (split;
     [ intros [Hlo Hhi];
       assert (H0 : 0 <= i) by lia;
       assert (H1 : i < 2 ^ z) by lia;
       assert (H2 : Qfloor (xindex z b (py_max (bb_left b) w)) < i + 1) by lia;
       assert (H3 : i <= snap (xindex z b (py_min (bb_right b) e))) by lia;
       apply A1 in H2; apply A2 in H3;
       specialize (P1 H0); specialize (P2 H1);
       split; [lia | split; lra]
     | intros [[H0 H1] [H2 H3]];
       specialize (P1 H0); specialize (P2 H1);
       assert (H4 : Qfloor (xindex z b (py_max (bb_left b) w)) < i + 1)
         by (apply A1; lra);
       assert (H5 : i <= snap (xindex z b (py_min (bb_right b) e)))
         by (apply A2; lra);
       lia ]).
Qed.

(** The rows, likewise: those whose bottom edge is south of [n] and whose
    top edge is at least [epsilon / 10] tile heights north of [s]. *)
Lemma row_yielded (b : Bbox) (z : Z) (s n : number) (j : Z) :
  well_formed b -> 0 <= z ->
  (Z.max 0 (Qfloor (yindex z b (py_min (bb_top b) n))) <= j
   < Z.min (snap (yindex z b (py_max (bb_bottom b) s)) + 1) (2 ^ z)
   <->
   0 <= j < 2 ^ z /\
   (toQ (bb_top b) - inject_Z (j + 1) * tile_height z b < toQ n)%Q /\
   (toQ s <= toQ (bb_top b) - inject_Z j * tile_height z b
             - (1 # 10000000000) * tile_height z b)%Q).
Proof.
  intros Hwf Hz.
  pose proof (tile_height_pos z b Hwf) as Hd.
  pose proof (tile_height_total z b Hz) as Ht.
  pose proof (Qfloor_lt_iff (j + 1) (yindex z b (py_min (bb_top b) n))) as A1.
  rewrite (yindex_lt z b _ _ Hwf) in A1.
  pose proof (snap_ge_iff j (yindex z b (py_max (bb_bottom b) s))) as A2.
  rewrite (yindex_ge z b _ _ Hwf) in A2.
  rewrite inject_Z_plus in *. change (inject_Z 1) with 1%Q in *.
  set (d := tile_height z b) in *.
  set (qj := inject_Z j) in *.
  assert (P1 : 0 <= j -> (0 <= qj * d)%Q).
  { intro H. apply Qmult_le_0_compat; [|lra].
    unfold qj. rewrite Zle_Qle in H. exact H. }
  assert (P2 : j < 2 ^ z -> (qj * d + d <= inject_Z (2 ^ z) * d)%Q).
  { intro H. assert (H' : j + 1 <= 2 ^ z) by lia.
    rewrite Zle_Qle, inject_Z_plus in H'. change (inject_Z 1) with 1%Q in H'.
    fold qj in H'.
    setoid_replace (qj * d + d)%Q with ((qj + 1) * d)%Q by ring.
    apply Qmult_le_compat_r; lra. }
  destruct (py_min_cases (bb_top b) n) as [[Hn1 Hn2]|[Hn1 Hn2]];
    destruct (py_max_cases (bb_bottom b) s) as [[Hs1 Hs2]|[Hs1 Hs2]];
    rewrite Hn2 in A1; rewrite Hs2 in A2;
    (split;
     [ intros [Hlo Hhi];
       assert (H0 : 0 <= j) by lia;
       assert (H1 : j < 2 ^ z) by lia;
       assert (H2 : Qfloor (yindex z b (py_min (bb_top b) n)) < j + 1) by lia;
       assert (H3 : j <= snap (yindex z b (py_max (bb_bottom b) s))) by lia;
       apply A1 in H2; apply A2 in H3;
       specialize (P1 H0); specialize (P2 H1);
       split; [lia | split; lra]
     | intros [[H0 H1] [H2 H3]];
       specialize (P1 H0); specialize (P2 H1);
       assert (H4 : Qfloor (yindex z b (py_min (bb_top b) n)) < j + 1)
         by (apply A1; lra);
       assert (H5 : j <= snap (yindex z b (py_max (bb_bottom b) s)))
         by (apply A2; lra);
       lia ]).
Qed.

(** *** Zoom 0 on [Bbox(-100, -100, 100, 100)] *)

(** A range within [0, 1) is [[0]] or empty. *)
Lemma range_unit (lo hi : Z) :
  0 <= lo -> hi <= 1 ->
  (lo <= 0 < hi /\ range lo hi = [0]) \/
  (~ lo <= 0 < hi /\ range lo hi = []).
Proof.
  intros Hlo Hhi. destruct (Z_lt_dec 0 hi) as [H|H].
  - destruct (Z.eq_dec lo 0) as [->|Hn].
    + left. split; [lia|]. replace hi with (0 + 1) by lia. apply range_one.
    + right. split; [lia|]. apply range_empty. lia.
  - right. split; [lia|]. apply range_empty. lia.
Qed.

(** C8, as stated, fails, in three ways.  The query box is clamped
    against the provider bounds, so a non-degenerate box outside them
    yields no tile.  The nudge moves the east and south indices down by
    [epsilon] when they are within [epsilon / 10] above an integer, so a
    non-degenerate box inside the extent whose east side is within
    [2e-8] of the left edge, or whose south side is within [2e-8] of the
    top edge, yields no tile either.  The program does the same on these
    boxes in binary64.  And in binary64 the west index is rounded: for
    [west = 100 - 2^-46], just inside the extent, [west + 100] rounds to
    [200], the index is [1.0] and no tile is yielded, where exact
    arithmetic yields the tile. *)
#[warnings="-inexact-float"]
Lemma tiles_zoom0_yields_nothing :
  ((toQ (Int 200) < toQ (Int 300))%Q /\
   (toQ (Int (-50)) < toQ (Int 50))%Q /\
   tiles (Int 200) (Int (-50)) (Int 300) (Int 50) (ZoomInt 0) bbox100 false
   = ([], None) /\
   Binary64.tiles 200 (-50) 300 50 (ZoomInt 0) Binary64.bbox100 false
   = ([], None)) /\
  ((toQ (Int (-100)) < toQ (Float (-9999999999 # 100000000)))%Q /\
   (toQ (Int (-50)) < toQ (Int 50))%Q /\
   tiles (Int (-100)) (Int (-50)) (Float (-9999999999 # 100000000)) (Int 50)
     (ZoomInt 0) bbox100 false
   = ([], None) /\
   Binary64.tiles (-100) (-50) (-99.99999999) 50 (ZoomInt 0)
     Binary64.bbox100 false
   = ([], None)) /\
  ((toQ (Int (-50)) < toQ (Int 50))%Q /\
   (toQ (Float (9999999999 # 100000000)) < toQ (Int 100))%Q /\
   tiles (Int (-50)) (Float (9999999999 # 100000000)) (Int 50) (Int 100)
     (ZoomInt 0) bbox100 false
   = ([], None) /\
   Binary64.tiles (-50) 99.99999999 50 100 (ZoomInt 0)
     Binary64.bbox100 false
   = ([], None)) /\
  ((100 - Z.ldexp 1 (-46) <? 100)%float = true /\
   (100 - Z.ldexp 1 (-46) <? 300)%float = true /\
   (-50 <? 50)%float = true /\
   Binary64.tiles (100 - Z.ldexp 1 (-46)) (-50) 300 50 (ZoomInt 0)
     Binary64.bbox100 false
   = ([], None) /\
   tiles (Float (100 - (1 # 70368744177664))) (Int (-50)) (Int 300) (Int 50)
     (ZoomInt 0) bbox100 false
   = ([Tile 0 0 0 bbox100], None)).
Proof.
  split; [|split; [|split]].
  - split; [reflexivity | split; [reflexivity |]].
    split; vm_compute; reflexivity.
  - split; [reflexivity | split; [reflexivity |]].
    split; vm_compute; reflexivity.
  - split; [reflexivity | split; [reflexivity |]].
    split; vm_compute; reflexivity.
  - split; [vm_compute; reflexivity |].
    split; [vm_compute; reflexivity |].
    split; [vm_compute; reflexivity |].
    split; vm_compute; reflexivity.
Qed.

(** C8, amended.  At zoom 0 on [Bbox(-100, -100, 100, 100)], computed
    over exact arithmetic, a query box yields exactly the tile
    [(0, 0, 0)] if and only if it reaches into the provider extent from
    the west and the north, [west < 100] and [north > -100], and by at
    least [2e-8] ([epsilon / 10] tile sizes) from the east and the south,
    [east >= -100 + 2e-8] and [south <= 100 - 2e-8]; every other query
    box yields no tile.  The box need not be non-degenerate. *)
Theorem tiles_zoom0_one_tile :
  forall west south east north : number,
  (tiles west south east north (ZoomInt 0) bbox100 false
   = ([Tile 0 0 0 bbox100], None)
   <->
   (toQ west < 100)%Q /\ (-100 < toQ north)%Q /\
   (-100 + (1 # 50000000) <= toQ east)%Q /\
   (toQ south <= 100 - (1 # 50000000))%Q) /\
  (tiles west south east north (ZoomInt 0) bbox100 false
   = ([Tile 0 0 0 bbox100], None) \/
   tiles west south east north (ZoomInt 0) bbox100 false = ([], None)).
Proof.
  intros west south east north.
  rewrite tiles_one_zoom.
  rewrite (tiles_zoom_grid bbox100 0 well_formed_bbox100 _ _ _ _
             (Z.le_refl 0)).
  pose proof (column_yielded bbox100 0 west east 0 well_formed_bbox100
                (Z.le_refl 0)) as Hc.
  pose proof (row_yielded bbox100 0 south north 0 well_formed_bbox100
                (Z.le_refl 0)) as Hr.
  change (tile_width 0 bbox100) with (200 # 1)%Q in Hc.
  change (tile_height 0 bbox100) with (200 # 1)%Q in Hr.
  change (toQ (bb_left bbox100)) with (-100 # 1)%Q in Hc.
  change (toQ (bb_top bbox100)) with (100 # 1)%Q in Hr.
  change (inject_Z (0 + 1)) with 1%Q in Hc, Hr.
  change (inject_Z 0) with 0%Q in Hc, Hr.
  change (2 ^ 0) with 1 in *.
  match goal with
  | |- context [grid 0 bbox100 (range ?a ?b) (range ?c ?d)] =>
      destruct (range_unit a b ltac:(lia) ltac:(lia)) as [[Hx ->]|[Hx ->]];
      destruct (range_unit c d ltac:(lia) ltac:(lia)) as [[Hy ->]|[Hy ->]]
  end;
    rewrite Hc in Hx; rewrite Hr in Hy;
    cbn [grid flat_map map app].
  - split; [|left; reflexivity].
    split; [intros _ | reflexivity].
    destruct Hx as [_ [Hx1 Hx2]]. destruct Hy as [_ [Hy1 Hy2]].
    repeat split; lra.
  - split; [|right; reflexivity].
    split; [discriminate|].
    intros [H1 [H2 [H3 H4]]]. exfalso. apply Hy.
    split; [lia | split; lra].
  - split; [|right; reflexivity].
    split; [discriminate|].
    intros [H1 [H2 [H3 H4]]]. exfalso. apply Hx.
    split; [lia | split; lra].
  - split; [|right; reflexivity].
    split; [discriminate|].
    intros [H1 [H2 [H3 H4]]]. exfalso. apply Hx.
    split; [lia | split; lra].
Qed.

Lemma tiles_zoom0_one_tile_witness :
  ((toQ (Float (-150)) < 100)%Q /\ (-100 < toQ (Int 300))%Q /\
   (-100 + (1 # 50000000) <= toQ (Float (1 # 2)))%Q /\
   (toQ (Int (-20)) <= 100 - (1 # 50000000))%Q) /\
  tiles (Float (-150)) (Int (-20)) (Float (1 # 2)) (Int 300) (ZoomInt 0)
    bbox100 false
  = ([Tile 0 0 0 bbox100], None).
Proof.
  assert (H : (toQ (Float (-150)) < 100)%Q /\ (-100 < toQ (Int 300))%Q /\
              (-100 + (1 # 50000000) <= toQ (Float (1 # 2)))%Q /\
              (toQ (Int (-20)) <= 100 - (1 # 50000000))%Q).
  { split; [reflexivity | split; [reflexivity |]].
    split; vm_compute; discriminate. }
  split; [exact H |].
  apply (proj2 (proj1 (tiles_zoom0_one_tile (Float (-150)) (Int (-20))
                         (Float (1 # 2)) (Int 300))) H).
Defined.

Lemma Tile_inj (i j z i' j' z' : Z) (b b' : Bbox) :
  Tile i j z b = Tile i' j' z' b' -> i = i' /\ j = j' /\ z = z'.
Proof. unfold Tile. intros [= -> -> ->]. auto. Qed.

(** Membership in the result of [tiles], in terms of the edges of the
    tile. *)
Lemma in_tiles_iff (west south east north : number) (zooms : zooms_arg)
  (b : Bbox) (t : WMTSTile) :
  well_formed b ->
  Forall (fun z => 0 <= z) (zoom_list zooms) ->
  (In t (fst (tiles west south east north zooms b false)) <->
   exists i j z : Z,
     t = Tile i j z b /\ In z (zoom_list zooms) /\
     (0 <= i < 2 ^ z /\
      (toQ west < toQ (bb_left b) + inject_Z (i + 1) * tile_width z b)%Q /\
      (toQ (bb_left b) + inject_Z i * tile_width z b
       + (1 # 10000000000) * tile_width z b <= toQ east)%Q) /\
     (0 <= j < 2 ^ z /\
      (toQ (bb_top b) - inject_Z (j + 1) * tile_height z b < toQ north)%Q /\
      (toQ south <= toQ (bb_top b) - inject_Z j * tile_height z b
                    - (1 # 10000000000) * tile_height z b)%Q)).
Proof.
  intros Hwf Hzs. rewrite (tiles_flat_map _ _ _ _ _ _ Hwf Hzs). cbn [fst].
  rewrite in_flat_map. rewrite Forall_forall in Hzs. split.
  - intros [z [Hz Hin]].
    rewrite (tiles_zoom_grid b z Hwf _ _ _ _ (Hzs z Hz)) in Hin.
    cbn [fst] in Hin. apply in_grid in Hin.
    destruct Hin as [i [j [Hi [Hj ->]]]].
    apply in_range in Hi, Hj.
    apply (column_yielded b z _ _ _ Hwf (Hzs z Hz)) in Hi.
    apply (row_yielded b z _ _ _ Hwf (Hzs z Hz)) in Hj.
    exists i, j, z. auto.
  - intros [i [j [z [-> [Hz [Hi Hj]]]]]].
    exists z. split; [exact Hz|].
    rewrite (tiles_zoom_grid b z Hwf _ _ _ _ (Hzs z Hz)). cbn [fst].
    apply in_grid_iff. exists i, j.
    split; [apply in_range, (column_yielded b z _ _ _ Hwf (Hzs z Hz)), Hi|].
    split; [apply in_range, (row_yielded b z _ _ _ Hwf (Hzs z Hz)), Hj|].
    reflexivity.
Qed.

(** X13.  Which tiles [tiles] yields, computed over exact arithmetic on
    bounds of positive width and height and zooms [>= 0].  It raises
    nothing and yields tiles with int indices only; the tile [(i, j, z)]
    is among them exactly when [z] is a requested zoom, [i] and [j] are in
    [0, 2^z), and the box of the tile, as [bounds] gives it, reaches into
    the query box: its right edge is east of [west], its bottom edge south
    of [north], and its left and top edges are at least [1e-10] tile
    widths west of [east] and [1e-10] tile heights north of [south]. *)
Theorem tiles_yields_exactly_overlapping :
  forall (west south east north : number) (zooms : zooms_arg) (b : Bbox),
  well_formed b ->
  Forall (fun z => 0 <= z) (zoom_list zooms) ->
  snd (tiles west south east north zooms b false) = None /\
  (forall t : WMTSTile,
     In t (fst (tiles west south east north zooms b false)) ->
     exists i j z : Z, t = Tile i j z b) /\
  (forall i j z : Z,
     In (Tile i j z b) (fst (tiles west south east north zooms b false)) <->
     In z (zoom_list zooms) /\ 0 <= i < 2 ^ z /\ 0 <= j < 2 ^ z /\
     exists bb : Bbox,
       bounds [of_tile (Tile i j z b)] = Return bb /\
       (toQ west < toQ (bb_right bb))%Q /\
       (toQ (bb_left bb) + (1 # 10000000000) * tile_width z b
        <= toQ east)%Q /\
       (toQ (bb_bottom bb) < toQ north)%Q /\
       (toQ south
        <= toQ (bb_top bb) - (1 # 10000000000) * tile_height z b)%Q).
Proof.
  intros west south east north zooms b Hwf Hzs.
  split; [rewrite (tiles_flat_map _ _ _ _ _ _ Hwf Hzs); reflexivity|].
  split.
  - intros t Ht. apply (in_tiles_iff _ _ _ _ _ _ _ Hwf Hzs) in Ht.
    destruct Ht as [i [j [z [-> _]]]]. exists i, j, z. reflexivity.
  - intros i j z. rewrite (in_tiles_iff _ _ _ _ _ _ _ Hwf Hzs).
    destruct (bounds_edges b z i j) as [bb [Hb [Hl [Hr [Hbo Ht]]]]].
    rewrite bounds_of_tile. split.
    + intros [i' [j' [z' [E [Hz [[Hi [Hi1 Hi2]] [Hj [Hj1 Hj2]]]]]]]].
      apply Tile_inj in E. destruct E as [<- [<- <-]].
      split; [exact Hz | split; [exact Hi | split; [exact Hj |]]].
      exists bb. split; [exact Hb|]. rewrite Hl, Hr, Hbo, Ht. auto.
    + intros [Hz [Hi [Hj [bb' [Hb' [H1 [H2 [H3 H4]]]]]]]].
      rewrite Hb in Hb'. injection Hb' as <-.
      rewrite Hl, Hr, Hbo, Ht in *.
      exists i, j, z. split; [reflexivity|]. split; [exact Hz|]. auto.
Qed.

Lemma tiles_yields_exactly_overlapping_witness :
  well_formed bbox100 /\
  Forall (fun z => 0 <= z) (zoom_list (ZoomSeq [1; 3])) /\
  snd (tiles (Int 0) (Int (-50)) (Int 60) (Int 20) (ZoomSeq [1; 3])
         bbox100 false) = None /\
  (forall t : WMTSTile,
     In t (fst (tiles (Int 0) (Int (-50)) (Int 60) (Int 20) (ZoomSeq [1; 3])
                  bbox100 false)) ->
     exists i j z : Z, t = Tile i j z bbox100) /\
  (forall i j z : Z,
     In (Tile i j z bbox100)
       (fst (tiles (Int 0) (Int (-50)) (Int 60) (Int 20) (ZoomSeq [1; 3])
               bbox100 false)) <->
     In z (zoom_list (ZoomSeq [1; 3])) /\ 0 <= i < 2 ^ z /\ 0 <= j < 2 ^ z /\
     exists bb : Bbox,
       bounds [of_tile (Tile i j z bbox100)] = Return bb /\
       (toQ (Int 0) < toQ (bb_right bb))%Q /\
       (toQ (bb_left bb) + (1 # 10000000000) * tile_width z bbox100
        <= toQ (Int 60))%Q /\
       (toQ (bb_bottom bb) < toQ (Int 20))%Q /\
       (toQ (Int (-50))
        <= toQ (bb_top bb) - (1 # 10000000000) * tile_height z bbox100)%Q).
Proof.
  assert (H : well_formed bbox100) by (split; reflexivity).
  assert (Hz : Forall (fun z => 0 <= z) (zoom_list (ZoomSeq [1; 3])))
    by (repeat constructor; lia).
  split; [exact H | split; [exact Hz |]].
  apply (tiles_yields_exactly_overlapping (Int 0) (Int (-50)) (Int 60)
           (Int 20) (ZoomSeq [1; 3]) bbox100 H Hz).
Defined.

(** X14.  [tiles] covers the query box, up to the nudge.  Computed over
    exact arithmetic on bounds of positive width and height: for a point
    of the query box that lies within the provider bounds, at least
    [1e-10] tile widths from the east edges and [1e-10] tile heights from
    the south edges, the tile that [tile] returns at a requested zoom is
    among the tiles yielded. *)
Theorem tiles_cover_points :
  forall (west south east north x y : number) (zooms : zooms_arg) (z : Z)
         (b : Bbox) (truncate : bool),
  well_formed b ->
  Forall (fun z => 0 <= z) (zoom_list zooms) ->
  In z (zoom_list zooms) ->
  (toQ (bb_left b) <= toQ x)%Q ->
  (toQ west <= toQ x)%Q ->
  (toQ x + (1 # 10000000000) * tile_width z b <= toQ east)%Q ->
  (toQ x + (1 # 10000000000) * tile_width z b <= toQ (bb_right b))%Q ->
  (toQ y <= toQ (bb_top b))%Q ->
  (toQ y <= toQ north)%Q ->
  (toQ south <= toQ y - (1 # 10000000000) * tile_height z b)%Q ->
  (toQ (bb_bottom b) <= toQ y - (1 # 10000000000) * tile_height z b)%Q ->
  exists t : WMTSTile,
    tile x y z b truncate = Return t /\
    In t (fst (tiles west south east north zooms b false)).
Proof.
  intros west south east north x y zooms z b tr Hwf Hzs Hz
         Hx1 Hx2 Hx3 Hx4 Hy1 Hy2 Hy3 Hy4.
  rewrite (tile_Return b z x y tr Hwf). eexists. split; [reflexivity|].
  apply (in_tiles_iff _ _ _ _ _ _ _ Hwf Hzs).
  assert (Hz0 : 0 <= z) by (rewrite Forall_forall in Hzs; apply Hzs, Hz).
  pose proof (tile_width_pos z b Hwf) as Hdx.
  pose proof (tile_height_pos z b Hwf) as Hdy.
  pose proof (tile_width_total z b Hz0) as Tx.
  pose proof (tile_height_total z b Hz0) as Ty.
  set (i := Qfloor (xindex z b x)). set (j := Qfloor (yindex z b y)).
  pose proof (proj1 (xindex_ge z b x _ Hwf) (Qfloor_le (xindex z b x))) as I1.
  pose proof (proj1 (xindex_lt z b x _ Hwf) (Qlt_floor (xindex z b x))) as I2.
  pose proof (proj1 (yindex_ge z b y _ Hwf) (Qfloor_le (yindex z b y))) as J1.
  pose proof (proj1 (yindex_lt z b y _ Hwf) (Qlt_floor (yindex z b y))) as J2.
  fold i in I1, I2. fold j in J1, J2.
  assert (Hi : 0 <= i < 2 ^ z).
  { split.
    - apply Qfloor_ge_iff, (xindex_ge z b x _ Hwf).
      change (inject_Z 0) with 0%Q. lra.
    - apply Qfloor_lt_iff, (xindex_lt z b x _ Hwf). lra. }
  assert (Hj : 0 <= j < 2 ^ z).
  { split.
    - apply Qfloor_ge_iff, (yindex_ge z b y _ Hwf).
      change (inject_Z 0) with 0%Q. lra.
    - apply Qfloor_lt_iff, (yindex_lt z b y _ Hwf). lra. }
  exists i, j, z. split; [reflexivity|]. split; [exact Hz|].
  split; (split; [assumption | split; lra]).
Qed.

Lemma tiles_cover_points_witness :
  well_formed bbox100 /\
  Forall (fun z => 0 <= z) (zoom_list (ZoomSeq [1; 3])) /\
  In 3 (zoom_list (ZoomSeq [1; 3])) /\
  (toQ (bb_left bbox100) <= toQ (Int 30))%Q /\
  (toQ (Int 0) <= toQ (Int 30))%Q /\
  (toQ (Int 30) + (1 # 10000000000) * tile_width 3 bbox100
   <= toQ (Int 60))%Q /\
  (toQ (Int 30) + (1 # 10000000000) * tile_width 3 bbox100
   <= toQ (bb_right bbox100))%Q /\
  (toQ (Float (-7 # 2)) <= toQ (bb_top bbox100))%Q /\
  (toQ (Float (-7 # 2)) <= toQ (Int 20))%Q /\
  (toQ (Int (-50))
   <= toQ (Float (-7 # 2)) - (1 # 10000000000) * tile_height 3 bbox100)%Q /\
  (toQ (bb_bottom bbox100)
   <= toQ (Float (-7 # 2)) - (1 # 10000000000) * tile_height 3 bbox100)%Q /\
  exists t : WMTSTile,
    tile (Int 30) (Float (-7 # 2)) 3 bbox100 false = Return t /\
    In t (fst (tiles (Int 0) (Int (-50)) (Int 60) (Int 20) (ZoomSeq [1; 3])
                 bbox100 false)).
Proof.
  assert (H : well_formed bbox100) by (split; reflexivity).
  assert (Hzs : Forall (fun z => 0 <= z) (zoom_list (ZoomSeq [1; 3])))
    by (repeat constructor; lia).
  assert (Hz : In 3 (zoom_list (ZoomSeq [1; 3]))) by (right; left; reflexivity).
  assert (H1 : (toQ (bb_left bbox100) <= toQ (Int 30))%Q)
    by (vm_compute; discriminate).
  assert (H2 : (toQ (Int 0) <= toQ (Int 30))%Q) by (vm_compute; discriminate).
  assert (H3 : (toQ (Int 30) + (1 # 10000000000) * tile_width 3 bbox100
                <= toQ (Int 60))%Q) by (vm_compute; discriminate).
  assert (H4 : (toQ (Int 30) + (1 # 10000000000) * tile_width 3 bbox100
                <= toQ (bb_right bbox100))%Q) by (vm_compute; discriminate).
  assert (H5 : (toQ (Float (-7 # 2)) <= toQ (bb_top bbox100))%Q)
    by (vm_compute; discriminate).
  assert (H6 : (toQ (Float (-7 # 2)) <= toQ (Int 20))%Q)
    by (vm_compute; discriminate).
  assert (H7 : (toQ (Int (-50))
                <= toQ (Float (-7 # 2))
                   - (1 # 10000000000) * tile_height 3 bbox100)%Q)
    by (vm_compute; discriminate).
  assert (H8 : (toQ (bb_bottom bbox100)
                <= toQ (Float (-7 # 2))
                   - (1 # 10000000000) * tile_height 3 bbox100)%Q)
    by (vm_compute; discriminate).
  repeat (split; [assumption |]).
  apply (tiles_cover_points (Int 0) (Int (-50)) (Int 60) (Int 20) (Int 30)
           (Float (-7 # 2)) (ZoomSeq [1; 3]) 3 bbox100 false
           H Hzs Hz H1 H2 H3 H4 H5 H6 H7 H8).
Defined.

(** X15.  [tiles] is monotone in the query box.  Computed over exact
    arithmetic on bounds of positive width and height: a query box that
    contains another yields every tile the other yields. *)
Theorem tiles_monotone :
  forall (w1 s1 e1 n1 w2 s2 e2 n2 : number) (zooms : zooms_arg) (b : Bbox),
  well_formed b ->
  Forall (fun z => 0 <= z) (zoom_list zooms) ->
  (toQ w2 <= toQ w1)%Q ->
  (toQ s2 <= toQ s1)%Q ->
  (toQ e1 <= toQ e2)%Q ->
  (toQ n1 <= toQ n2)%Q ->
  forall t : WMTSTile,
    In t (fst (tiles w1 s1 e1 n1 zooms b false)) ->
    In t (fst (tiles w2 s2 e2 n2 zooms b false)).
Proof.
  intros w1 s1 e1 n1 w2 s2 e2 n2 zooms b Hwf Hzs Hw Hs He Hn t Ht.
  apply (in_tiles_iff _ _ _ _ _ _ _ Hwf Hzs) in Ht.
  apply (in_tiles_iff _ _ _ _ _ _ _ Hwf Hzs).
  destruct Ht as [i [j [z [-> [Hz [[Hi [Hi1 Hi2]] [Hj [Hj1 Hj2]]]]]]]].
  exists i, j, z. split; [reflexivity|]. split; [exact Hz|].
  split; (split; [assumption | split; lra]).
Qed.

Lemma tiles_monotone_witness :
  well_formed bbox100 /\
  Forall (fun z => 0 <= z) (zoom_list (ZoomInt 2)) /\
  (toQ (Int (-10)) <= toQ (Int 0))%Q /\
  (toQ (Int (-60)) <= toQ (Int (-50)))%Q /\
  (toQ (Int 60) <= toQ (Int 70))%Q /\
  (toQ (Int 20) <= toQ (Int 20))%Q /\
  forall t : WMTSTile,
    In t (fst (tiles (Int 0) (Int (-50)) (Int 60) (Int 20) (ZoomInt 2)
                 bbox100 false)) ->
    In t (fst (tiles (Int (-10)) (Int (-60)) (Int 70) (Int 20) (ZoomInt 2)
                 bbox100 false)).
Proof.
  assert (H : well_formed bbox100) by (split; reflexivity).
  assert (Hzs : Forall (fun z => 0 <= z) (zoom_list (ZoomInt 2)))
    by (repeat constructor; lia).
  assert (H1 : (toQ (Int (-10)) <= toQ (Int 0))%Q)
    by (vm_compute; discriminate).
  assert (H2 : (toQ (Int (-60)) <= toQ (Int (-50)))%Q)
    by (vm_compute; discriminate).
  assert (H3 : (toQ (Int 60) <= toQ (Int 70))%Q)
    by (vm_compute; discriminate).
  assert (H4 : (toQ (Int 20) <= toQ (Int 20))%Q)
    by (vm_compute; discriminate).
  repeat (split; [assumption |]).
  apply (tiles_monotone (Int 0) (Int (-50)) (Int 60) (Int 20)
           (Int (-10)) (Int (-60)) (Int 70) (Int 20) (ZoomInt 2) bbox100
           H Hzs H1 H2 H3 H4).
Defined.

Lemma no_member_nil {A : Type} (l : list A) :
  (forall a, ~ In a l) -> l = [].
Proof.
  destruct l as [|a l]; [reflexivity|].
  intro H. exfalso. apply (H a). left. reflexivity.
Qed.

(** X16.  A query box that does not reach into the provider extent
    yields nothing and raises nothing.  Computed over exact arithmetic on
    bounds of positive width and height and zooms [>= 0]: when the query
    box lies to the west, east, south or north of the provider bounds
    (touching included), [tiles] ends without a tile. *)
Theorem tiles_outside_yields_nothing :
  forall (west south east north : number) (zooms : zooms_arg) (b : Bbox),
  well_formed b ->
  Forall (fun z => 0 <= z) (zoom_list zooms) ->
  (toQ east <= toQ (bb_left b))%Q \/ (toQ (bb_right b) <= toQ west)%Q \/
  (toQ north <= toQ (bb_bottom b))%Q \/ (toQ (bb_top b) <= toQ south)%Q ->
  tiles west south east north zooms b false = ([], None).
Proof.
  intros west south east north zooms b Hwf Hzs Hout.
  pose proof (in_tiles_iff west south east north zooms b) as Hin.
  rewrite (tiles_flat_map _ _ _ _ _ _ Hwf Hzs) in *. cbn [fst] in Hin.
  f_equal. apply no_member_nil. intros t Ht.
  apply (Hin t Hwf Hzs) in Ht.
  destruct Ht as [i [j [z [_ [Hz [[Hi [Hi1 Hi2]] [Hj [Hj1 Hj2]]]]]]]].
  assert (Hz0 : 0 <= z) by (rewrite Forall_forall in Hzs; apply Hzs, Hz).
  pose proof (tile_width_pos z b Hwf) as Hdx.
  pose proof (tile_height_pos z b Hwf) as Hdy.
  destruct Hwf as [Hlr Hbt].
  pose proof (columns_within _ _ z i Hlr Hz0 ltac:(lia)) as [Hx0 Hx1].
  pose proof (columns_within _ _ z (i + 1) Hlr Hz0 ltac:(lia)) as [Hx2 Hx3].
  pose proof (columns_within _ _ z j Hbt Hz0 ltac:(lia)) as [Hy0 Hy1].
  pose proof (columns_within _ _ z (j + 1) Hbt Hz0 ltac:(lia)) as [Hy2 Hy3].
  unfold tile_width, tile_height in *.
  set (dx := (toQ (sub (bb_right b) (bb_left b)) / 2 ^ z)%Q) in *.
  set (dy := (toQ (sub (bb_top b) (bb_bottom b)) / 2 ^ z)%Q) in *.
  destruct Hout as [H|[H|[H|H]]]; lra.
Qed.

Lemma tiles_outside_yields_nothing_witness :
  well_formed bbox100 /\
  Forall (fun z => 0 <= z) (zoom_list (ZoomSeq [0; 5])) /\
  ((toQ (Int 300) <= toQ (bb_left bbox100))%Q \/
   (toQ (bb_right bbox100) <= toQ (Int 100))%Q \/
   (toQ (Int 50) <= toQ (bb_bottom bbox100))%Q \/
   (toQ (bb_top bbox100) <= toQ (Int (-50)))%Q) /\
  tiles (Int 100) (Int (-50)) (Int 300) (Int 50) (ZoomSeq [0; 5]) bbox100
    false = ([], None).
Proof.
  assert (H : well_formed bbox100) by (split; reflexivity).
  assert (Hzs : Forall (fun z => 0 <= z) (zoom_list (ZoomSeq [0; 5])))
    by (repeat constructor; lia).
  assert (Ho : (toQ (Int 300) <= toQ (bb_left bbox100))%Q \/
               (toQ (bb_right bbox100) <= toQ (Int 100))%Q \/
               (toQ (Int 50) <= toQ (bb_bottom bbox100))%Q \/
               (toQ (bb_top bbox100) <= toQ (Int (-50)))%Q)
    by (right; left; vm_compute; discriminate).
  split; [exact H | split; [exact Hzs | split; [exact Ho |]]].
  apply (tiles_outside_yields_nothing (Int 100) (Int (-50)) (Int 300)
           (Int 50) (ZoomSeq [0; 5]) bbox100 H Hzs Ho).
Defined.

(** ** Queries aligned with the pyramid *)

(** The columns run through for a query whose west and east sides sit on
    the left edge of column [x0] and the right edge of column [x1]. *)
Lemma aligned_columns (b : Bbox) (z x0 x1 : Z) (w e : number) :
  well_formed b -> 0 <= z -> 0 <= x0 -> x1 < 2 ^ z ->
  (toQ w == toQ (bb_left b) + inject_Z x0 * tile_width z b)%Q ->
  (toQ e == toQ (bb_left b) + inject_Z (x1 + 1) * tile_width z b)%Q ->
  range (Z.max 0 (Qfloor (xindex z b w))) (Z.min (snap (xindex z b e) + 1) (2 ^ z))
  = range x0 (x1 + 1).
Proof.
  intros Hwf Hz H0 H1 Hw He.
  rewrite (Qfloor_of_int _ _ (xindex_of_column b z Hwf w x0 Hw)).
  rewrite (snap_comp _ _ (xindex_of_column b z Hwf e (x1 + 1) He)).
  rewrite (snap_unique _ x1);
    try (rewrite inject_Z_plus; change (inject_Z 1) with 1%Q; lra).
  f_equal; lia.
Qed.

Lemma aligned_rows (b : Bbox) (z y0 y1 : Z) (s n : number) :
  well_formed b -> 0 <= z -> 0 <= y0 -> y1 < 2 ^ z ->
  (toQ n == toQ (bb_top b) - inject_Z y0 * tile_height z b)%Q ->
  (toQ s == toQ (bb_top b) - inject_Z (y1 + 1) * tile_height z b)%Q ->
  range (Z.max 0 (Qfloor (yindex z b n))) (Z.min (snap (yindex z b s) + 1) (2 ^ z))
  = range y0 (y1 + 1).
Proof.
  intros Hwf Hz H0 H1 Hn Hs.
  rewrite (Qfloor_of_int _ _ (yindex_of_row b z Hwf n y0 Hn)).
  rewrite (snap_comp _ _ (yindex_of_row b z Hwf s (y1 + 1) Hs)).
  rewrite (snap_unique _ y1);
    try (rewrite inject_Z_plus; change (inject_Z 1) with 1%Q; lra).
  f_equal; lia.
Qed.

(** X17.  Computed over exact arithmetic on bounds of positive width
    and height: querying the box that a rectangular block of tiles covers
    (from the upper-left corner of tile [(x0, y0)] to the lower-right
    corner of tile [(x1, y1)], all within the pyramid) yields exactly the
    tiles of the block, column by column, and none of their neighbours. *)
Theorem tiles_of_tile_block :
  forall (b : Bbox) (z x0 y0 x1 y1 : Z),
  well_formed b ->
  0 <= z ->
  0 <= x0 <= x1 /\ x1 < 2 ^ z ->
  0 <= y0 <= y1 /\ y1 < 2 ^ z ->
  exists a c : XY,
    ul [PyNum (Int x0); PyNum (Int y0); PyNum (Int z); of_bbox b]
      = Return a /\
    ul [PyNum (Int (x1 + 1)); PyNum (Int (y1 + 1)); PyNum (Int z); of_bbox b]
      = Return c /\
    tiles (xy_x a) (xy_y c) (xy_x c) (xy_y a) (ZoomInt z) b false
    = (grid z b (range x0 (x1 + 1)) (range y0 (y1 + 1)), None).
Proof.
  intros b z x0 y0 x1 y1 Hwf Hz [[Hx0 Hx01] Hx1] [[Hy0 Hy01] Hy1].
  rewrite !ul_Return. do 2 eexists.
  split; [reflexivity | split; [reflexivity |]].
  cbn [xy_x xy_y].
  rewrite tiles_one_zoom, (tiles_zoom_grid b z Hwf _ _ _ _ Hz).
  pose proof Hwf as [Hlr Hbt].
  pose proof (columns_within _ _ z x0 Hlr Hz ltac:(lia)) as [Ha0 Ha1].
  pose proof (columns_within _ _ z (x1 + 1) Hlr Hz ltac:(lia)) as [Ha2 Ha3].
  pose proof (columns_within _ _ z y0 Hbt Hz ltac:(lia)) as [Hb0 Hb1].
  pose proof (columns_within _ _ z (y1 + 1) Hbt Hz ltac:(lia)) as [Hb2 Hb3].
  fold (tile_width z b) in *. fold (tile_height z b) in *.
  rewrite (aligned_columns b z x0 x1), (aligned_rows b z y0 y1);
    try assumption; try reflexivity.
  - rewrite py_min_r; rewrite toQ_sub, toQ_mul; cbn [toQ];
      [reflexivity | lra].
  - rewrite py_max_r; rewrite toQ_sub, toQ_mul; cbn [toQ];
      [reflexivity | lra].
  - rewrite py_max_r; rewrite toQ_add, toQ_mul; cbn [toQ];
      [reflexivity | lra].
  - rewrite py_min_r; rewrite toQ_add, toQ_mul; cbn [toQ];
      [reflexivity | lra].
Qed.

Lemma tiles_of_tile_block_witness :
  well_formed bbox100 /\
  0 <= 3 /\
  (0 <= 2 <= 4 /\ 4 < 2 ^ 3) /\
  (0 <= 6 <= 7 /\ 7 < 2 ^ 3) /\
  exists a c : XY,
    ul [PyNum (Int 2); PyNum (Int 6); PyNum (Int 3); of_bbox bbox100]
      = Return a /\
    ul [PyNum (Int (4 + 1)); PyNum (Int (7 + 1)); PyNum (Int 3);
        of_bbox bbox100] = Return c /\
    tiles (xy_x a) (xy_y c) (xy_x c) (xy_y a) (ZoomInt 3) bbox100 false
    = (grid 3 bbox100 (range 2 (4 + 1)) (range 6 (7 + 1)), None).
Proof.
  assert (H : well_formed bbox100) by (split; reflexivity).
  assert (Hz : 0 <= 3) by lia.
  assert (Hx : 0 <= 2 <= 4 /\ 4 < 2 ^ 3) by lia.
  assert (Hy : 0 <= 6 <= 7 /\ 7 < 2 ^ 3) by lia.
  repeat (split; [assumption |]).
  apply (tiles_of_tile_block bbox100 3 2 6 4 7 H Hz Hx Hy).
Defined.

(** X18.  Computed over exact arithmetic on bounds of positive width
    and height: a query box that contains the provider bounds yields the
    whole level, all [2^z] columns of [2^z] rows, [4^z] tiles. *)
Theorem tiles_whole_level :
  forall (west south east north : number) (z : Z) (b : Bbox),
  well_formed b ->
  0 <= z ->
  (toQ west <= toQ (bb_left b))%Q ->
  (toQ south <= toQ (bb_bottom b))%Q ->
  (toQ (bb_right b) <= toQ east)%Q ->
  (toQ (bb_top b) <= toQ north)%Q ->
  tiles west south east north (ZoomInt z) b false
  = (grid z b (range 0 (2 ^ z)) (range 0 (2 ^ z)), None) /\
  length (fst (tiles west south east north (ZoomInt z) b false))
  = Z.to_nat (4 ^ z).
Proof.
  intros west south east north z b Hwf Hz Hw Hs He Hn.
  assert (Hp : 0 < 2 ^ z) by (apply Z.pow_pos_nonneg; lia).
  assert (E : tiles west south east north (ZoomInt z) b false
              = (grid z b (range 0 (2 ^ z)) (range 0 (2 ^ z)), None)).
  { rewrite tiles_one_zoom, (tiles_zoom_grid b z Hwf _ _ _ _ Hz).
    pose proof (tile_width_total z b Hz) as Tx.
    pose proof (tile_height_total z b Hz) as Ty.
    rewrite (aligned_columns b z 0 (2 ^ z - 1)),
            (aligned_rows b z 0 (2 ^ z - 1));
      try assumption; try lia.
    - replace (2 ^ z - 1 + 1) with (2 ^ z) by lia. reflexivity.
    - rewrite py_min_l by exact Hn. change (inject_Z 0) with 0%Q. ring.
    - rewrite py_max_l by exact Hs.
      replace (2 ^ z - 1 + 1) with (2 ^ z) by lia. rewrite Ty. ring.
    - rewrite py_max_l by exact Hw. change (inject_Z 0) with 0%Q. ring.
    - rewrite py_min_l by exact He.
      replace (2 ^ z - 1 + 1) with (2 ^ z) by lia. rewrite Tx. ring. }
  split; [exact E|].
  rewrite E. cbn [fst]. rewrite length_grid, !length_range, Z.sub_0_r.
  rewrite <- Z2Nat.inj_mul by lia.
  change 4 with (2 * 2). rewrite Z.pow_mul_l. reflexivity.
Qed.

Lemma tiles_whole_level_witness :
  well_formed bbox100 /\
  0 <= 3 /\
  (toQ (Int (-100)) <= toQ (bb_left bbox100))%Q /\
  (toQ (Int (-500)) <= toQ (bb_bottom bbox100))%Q /\
  (toQ (bb_right bbox100) <= toQ (Float (201 # 2)))%Q /\
  (toQ (bb_top bbox100) <= toQ (Int 100))%Q /\
  tiles (Int (-100)) (Int (-500)) (Float (201 # 2)) (Int 100) (ZoomInt 3)
    bbox100 false
  = (grid 3 bbox100 (range 0 (2 ^ 3)) (range 0 (2 ^ 3)), None) /\
  length (fst (tiles (Int (-100)) (Int (-500)) (Float (201 # 2)) (Int 100)
                 (ZoomInt 3) bbox100 false))
  = Z.to_nat (4 ^ 3).
Proof.
  assert (H : well_formed bbox100) by (split; reflexivity).
  assert (Hz : 0 <= 3) by lia.
  assert (H1 : (toQ (Int (-100)) <= toQ (bb_left bbox100))%Q)
    by (vm_compute; discriminate).
  assert (H2 : (toQ (Int (-500)) <= toQ (bb_bottom bbox100))%Q)
    by (vm_compute; discriminate).
  assert (H3 : (toQ (bb_right bbox100) <= toQ (Float (201 # 2)))%Q)
    by (vm_compute; discriminate).
  assert (H4 : (toQ (bb_top bbox100) <= toQ (Int 100))%Q)
    by (vm_compute; discriminate).
  repeat (split; [assumption |]).
  apply (tiles_whole_level (Int (-100)) (Int (-500)) (Float (201 # 2))
           (Int 100) 3 bbox100 H Hz H1 H2 H3 H4).
Defined.

(** ** Zoom levels *)

(** X19.  Computed over exact arithmetic on bounds of positive width
    and height and zooms [>= 0]: the tiles for a sequence of zooms are the
    tiles for each zoom on its own, one result after the other in the
    order of the sequence, and nothing is raised. *)
Theorem tiles_zoom_sequence_concat :
  forall (west south east north : number) (l : list Z) (b : Bbox),
  well_formed b ->
  Forall (fun z => 0 <= z) l ->
  tiles west south east north (ZoomSeq l) b false
  = (flat_map
       (fun z => fst (tiles west south east north (ZoomInt z) b false)) l,
     None).
Proof.
  intros west south east north l b Hwf Hl.
  rewrite (tiles_flat_map _ _ _ _ (ZoomSeq l) _ Hwf Hl). cbn [zoom_list].
  f_equal. apply flat_map_ext. intro z. rewrite tiles_one_zoom. reflexivity.
Qed.

Lemma tiles_zoom_sequence_concat_witness :
  well_formed bbox100 /\
  Forall (fun z => 0 <= z) [2; 0; 2] /\
  tiles (Int 0) (Int (-50)) (Int 60) (Int 20) (ZoomSeq [2; 0; 2]) bbox100
    false
  = (flat_map
       (fun z => fst (tiles (Int 0) (Int (-50)) (Int 60) (Int 20) (ZoomInt z)
                        bbox100 false)) [2; 0; 2],
     None).
Proof.
  assert (H : well_formed bbox100) by (split; reflexivity).
  assert (Hl : Forall (fun z => 0 <= z) [2; 0; 2])
    by (repeat constructor; lia).
  split; [exact H | split; [exact Hl |]].
  apply (tiles_zoom_sequence_concat (Int 0) (Int (-50)) (Int 60) (Int 20)
           [2; 0; 2] bbox100 H Hl).
Defined.

Lemma pow2_neg_lt_1 (z : Z) : z < 0 -> (2 ^ z < 1)%Q.
Proof.
  intro Hz. pose proof (pow2_pos z) as Hp.
  assert (E : (2 ^ z * 2 ^ (- z) == 1)%Q).
  { rewrite <- Qpower_plus by discriminate.
    replace (z + - z) with 0 by lia. reflexivity. }
  assert (Hq : (1 < 2 ^ (- z))%Q).
  { rewrite <- (inject_pow2 (- z)) by lia.
    change 1%Q with (inject_Z 1). rewrite <- Zlt_Qlt.
    apply Z.pow_gt_1; lia. }
  apply Qnot_le_lt. intro Hle.
  apply (Qmult_le_compat_r _ _ (2 ^ (- z))) in Hle; [|lra].
  rewrite E in Hle. lra.
Qed.

(** At a negative zoom [2 ** z] is a float below 1: either it is the
    smaller bound and [range] refuses it, or the range of columns is
    empty. *)
Lemma tiles_zoom_negative (w s e n : number) (z : Z) (b : Bbox) :
  z < 0 -> fst (tiles_zoom w s e n z b) = [].
Proof.
  intro Hz. unfold tiles_zoom.
  destruct (_tile w s z b false) as [[[llx lly] llz]|ex];
    cbn [then_ fst]; [|reflexivity].
  destruct (mod_ lly (Int 1)) as [lly_mod|ex];
    cbn [then_ fst]; [|reflexivity].
  destruct (truediv epsilon (Int 10)) as [eps10|ex];
    cbn [then_ fst]; [|reflexivity].
  destruct (_tile e n z b false) as [[[urx ury] urz]|ex];
    cbn [then_ fst]; [|reflexivity].
  destruct (mod_ urx (Int 1)) as [urx_mod|ex];
    cbn [then_ fst]; [|reflexivity].
  rewrite clamp_floor.
  assert (Ep : pow2i z = Float (2 ^ z)).
  { unfold pow2i. destruct (0 <=? z) eqn:E; [|reflexivity].
    apply Z.leb_le in E. lia. }
  rewrite Ep. unfold py_min at 1.
  match goal with
  | |- context [lt (Float (2 ^ z)) (Int ?k)] =>
      destruct (lt (Float (2 ^ z)) (Int k)) eqn:E; cbn [py_range then_ fst];
        [reflexivity|];
        apply lt_false in E; cbn [toQ] in E;
        assert (Hk : k <= 0)
  end.
  { pose proof (pow2_neg_lt_1 z Hz) as H1.
    match type of E with
    | (inject_Z ?k <= _)%Q =>
        assert (H2 : k < 1); [|lia];
        rewrite Zlt_Qlt; change (inject_Z 1) with 1%Q; lra
    end. }
  rewrite range_empty by lia. reflexivity.
Qed.

Lemma for_yields_nothing {A T : Type} (l : list A) (body : A -> trace T) :
  (forall a, In a l -> fst (body a) = []) -> fst (for_ l body) = [].
Proof.
  induction l as [|a l IH]; intro H; [reflexivity|].
  cbn [for_].
  pose proof (H a (or_introl eq_refl)) as Ha.
  destruct (body a) as [ys [ex|]]; cbn [fst] in *; [exact Ha|].
  specialize (IH (fun a' Ha' => H a' (or_intror Ha'))).
  destruct (for_ l body) as [zs ex]. cbn [fst] in *. subst. reflexivity.
Qed.

(** X20.  Negative zooms yield no tile, whatever the query box, the
    bounds and the [truncate] flag: the power of two that bounds the
    loops is then a float below 1, and
    either [range] refuses it or the range of columns is empty. *)
Theorem tiles_negative_zooms_yield_nothing :
  forall (west south east north : number) (zooms : zooms_arg) (b : Bbox)
         (truncate : bool),
  Forall (fun z => z < 0) (zoom_list zooms) ->
  fst (tiles west south east north zooms b truncate) = [].
Proof.
  intros west south east north zooms b [|] Hz; [reflexivity|].
  unfold tiles. rewrite for_single. fold (zoom_list zooms).
  apply for_yields_nothing. intros z Hin.
  rewrite Forall_forall in Hz. apply tiles_zoom_negative, Hz, Hin.
Qed.

Lemma tiles_negative_zooms_yield_nothing_witness :
  Forall (fun z => z < 0) (zoom_list (ZoomSeq [-1; -3])) /\
  fst (tiles (Int 0) (Int (-50)) (Int 60) (Int 20) (ZoomSeq [-1; -3])
         bbox100 false) = [].
Proof.
  assert (Hz : Forall (fun z => z < 0) (zoom_list (ZoomSeq [-1; -3])))
    by (repeat constructor; lia).
  split; [exact Hz |].
  apply (tiles_negative_zooms_yield_nothing (Int 0) (Int (-50)) (Int 60)
           (Int 20) (ZoomSeq [-1; -3]) bbox100 false Hz).
Defined.

(** ** No tile twice *)

Lemma sorted_NoDup (l : list Z) : StronglySorted Z.lt l -> NoDup l.
Proof.
  induction 1 as [|a l Hs IH Ha]; constructor; [|exact IH].
  intro Hin. rewrite Forall_forall in Ha. specialize (Ha a Hin). lia.
Qed.

Lemma grid_NoDup (z : Z) (b : Bbox) (is_ js : list Z) :
  NoDup is_ -> NoDup js -> NoDup (grid z b is_ js).
Proof.
  intros His Hjs. induction His as [|i is_ Hi His IH]; [constructor|].
  change (grid z b (i :: is_) js)
    with (map (fun j => Tile i j z b) js ++ grid z b is_ js).
  apply NoDup_app; [|exact IH|].
  - clear -Hjs. induction Hjs as [|j js Hj Hjs IH]; cbn [map]; constructor;
      [|exact IH].
    intro Hin. apply in_map_iff in Hin. destruct Hin as [j' [E Hj']].
    apply Tile_inj in E. destruct E as [_ [-> _]]. contradiction.
  - intros t H1 H2. apply in_map_iff in H1. destruct H1 as [j [<- _]].
    apply in_grid in H2. destruct H2 as [i' [j' [Hi' [_ E]]]].
    apply Tile_inj in E. destruct E as [-> _]. contradiction.
Qed.

Lemma blocks_NoDup (zs : list Z) (f : Z -> list WMTSTile) :
  NoDup zs ->
  (forall z, NoDup (f z)) ->
  (forall z, Forall (fun t => t_z t = PyNum (Int z)) (f z)) ->
  NoDup (concat (map f zs)).
Proof.
  intros Hzs Hf Hz. induction Hzs as [|z zs Hin Hzs IH]; [constructor|].
  cbn [map concat]. apply NoDup_app; [apply Hf | exact IH |].
  intros t H1 H2. apply in_concat in H2. destruct H2 as [blk [Hblk H2]].
  apply in_map_iff in Hblk. destruct Hblk as [z' [<- Hz']].
  pose proof (Hz z) as F1. pose proof (Hz z') as F2.
  rewrite Forall_forall in F1, F2.
  specialize (F1 t H1). specialize (F2 t H2).
  rewrite F1 in F2. injection F2 as ->. contradiction.
Qed.

(** X21.  When no zoom is requested twice, [tiles] yields no tile
    twice, on every input and whether or not the iteration ends in an
    exception. *)
Theorem tiles_no_duplicates :
  forall (west south east north : number) (zooms : zooms_arg) (b : Bbox)
         (truncate : bool),
  NoDup (zoom_list zooms) ->
  NoDup (fst (tiles west south east north zooms b truncate)).
Proof.
  intros west south east north zooms b [|] Hnd; [constructor|].
  unfold tiles. rewrite for_single. fold (zoom_list zooms).
  set (body := fun z : Z => tiles_zoom _ _ _ _ z b).
  destruct (for_blocks (zoom_list zooms) body) as [k [Hk ->]].
  apply blocks_NoDup.
  - rewrite <- (firstn_skipn k (zoom_list zooms)) in Hnd.
    apply NoDup_app_remove_r in Hnd. exact Hnd.
  - intro z. unfold body.
    destruct (tiles_zoom_yields_grid
                (py_max (bb_left b) west) (py_max (bb_bottom b) south)
                (py_min (bb_right b) east) (py_min (bb_top b) north) z b)
      as [is_ [js [His [Hjs ->]]]].
    apply grid_NoDup; apply sorted_NoDup; assumption.
  - intro z. unfold body.
    destruct (tiles_zoom_yields_grid
                (py_max (bb_left b) west) (py_max (bb_bottom b) south)
                (py_min (bb_right b) east) (py_min (bb_top b) north) z b)
      as [is_ [js [His [Hjs ->]]]].
    apply grid_zoom.
Qed.

Lemma tiles_no_duplicates_witness :
  NoDup (zoom_list (ZoomSeq [2; 0; 1])) /\
  NoDup (fst (tiles (Int 0) (Int (-50)) (Int 60) (Int 20) (ZoomSeq [2; 0; 1])
                bbox100 false)).
Proof.
  assert (Hnd : NoDup (zoom_list (ZoomSeq [2; 0; 1]))).
  { cbn [zoom_list]. repeat constructor; cbn [In]; intro H; lia. }
  split; [exact Hnd |].
  apply (tiles_no_duplicates (Int 0) (Int (-50)) (Int 60) (Int 20)
           (ZoomSeq [2; 0; 1]) bbox100 false Hnd).
Defined.

(** ** The other side of the nudge *)

(** X22.  The nudge that keeps a tile's neighbours out also loses
    queries.  Computed over exact arithmetic on bounds of positive width
    and height: a query box that lies within the first [1e-10] of a
    column, counted in tile widths from the column's left edge, or within
    the first [1e-10] of a row from its top edge, yields no tile at all;
    so does a point query on such an edge. *)
Theorem tiles_on_edge_yields_nothing :
  forall (west south east north : number) (z k : Z) (b : Bbox),
  well_formed b ->
  0 <= z ->
  ((toQ (bb_left b) + inject_Z k * tile_width z b <= toQ west)%Q /\
   (toQ east < toQ (bb_left b) + inject_Z k * tile_width z b
               + (1 # 10000000000) * tile_width z b)%Q) \/
  ((toQ north <= toQ (bb_top b) - inject_Z k * tile_height z b)%Q /\
   (toQ (bb_top b) - inject_Z k * tile_height z b
    - (1 # 10000000000) * tile_height z b < toQ south)%Q) ->
  tiles west south east north (ZoomInt z) b false = ([], None).
Proof.
  intros west south east north z k b Hwf Hz Hedge.
  assert (Hzs : Forall (fun z => 0 <= z) (zoom_list (ZoomInt z)))
    by (constructor; [exact Hz | constructor]).
  pose proof (in_tiles_iff west south east north (ZoomInt z) b) as Hin.
  rewrite (tiles_flat_map _ _ _ _ _ _ Hwf Hzs) in *. cbn [fst] in Hin.
  f_equal. apply no_member_nil. intros t Ht.
  apply (Hin t Hwf Hzs) in Ht.
  destruct Ht as [i [j [z' [_ [Hz' [[Hi [Hi1 Hi2]] [Hj [Hj1 Hj2]]]]]]]].
  destruct Hz' as [<-|[]].
  pose proof (tile_width_pos z b Hwf) as Hdx.
  pose proof (tile_height_pos z b Hwf) as Hdy.
  set (dx := tile_width z b) in *. set (dy := tile_height z b) in *.
  destruct Hedge as [[H1 H2]|[H1 H2]].
  - assert (A : (inject_Z k * dx < inject_Z (i + 1) * dx)%Q) by lra.
    assert (B : (inject_Z i * dx < inject_Z k * dx)%Q) by lra.
    apply Qmult_lt_r in A; [|exact Hdx]. apply Qmult_lt_r in B; [|exact Hdx].
    rewrite <- Zlt_Qlt in A, B. lia.
  - assert (A : (inject_Z k * dy < inject_Z (j + 1) * dy)%Q) by lra.
    assert (B : (inject_Z j * dy < inject_Z k * dy)%Q) by lra.
    apply Qmult_lt_r in A; [|exact Hdy]. apply Qmult_lt_r in B; [|exact Hdy].
    rewrite <- Zlt_Qlt in A, B. lia.
Qed.

Lemma tiles_on_edge_yields_nothing_witness :
  well_formed bbox100 /\
  0 <= 1 /\
  (((toQ (bb_left bbox100) + inject_Z 1 * tile_width 1 bbox100
     <= toQ (Int 0))%Q /\
    (toQ (Int 0) < toQ (bb_left bbox100) + inject_Z 1 * tile_width 1 bbox100
                   + (1 # 10000000000) * tile_width 1 bbox100)%Q) \/
   ((toQ (Int 50) <= toQ (bb_top bbox100)
                     - inject_Z 1 * tile_height 1 bbox100)%Q /\
    (toQ (bb_top bbox100) - inject_Z 1 * tile_height 1 bbox100
     - (1 # 10000000000) * tile_height 1 bbox100 < toQ (Int (-50)))%Q)) /\
  tiles (Int 0) (Int (-50)) (Int 0) (Int 50) (ZoomInt 1) bbox100 false
  = ([], None).
Proof.
  assert (H : well_formed bbox100) by (split; reflexivity).
  assert (Hz : 0 <= 1) by lia.
  assert (He : ((toQ (bb_left bbox100) + inject_Z 1 * tile_width 1 bbox100
                 <= toQ (Int 0))%Q /\
                (toQ (Int 0)
                 < toQ (bb_left bbox100) + inject_Z 1 * tile_width 1 bbox100
                   + (1 # 10000000000) * tile_width 1 bbox100)%Q) \/
               ((toQ (Int 50) <= toQ (bb_top bbox100)
                                 - inject_Z 1 * tile_height 1 bbox100)%Q /\
                (toQ (bb_top bbox100) - inject_Z 1 * tile_height 1 bbox100
                 - (1 # 10000000000) * tile_height 1 bbox100
                 < toQ (Int (-50)))%Q)).
  { left. split; [vm_compute; discriminate | vm_compute; reflexivity]. }
  split; [exact H | split; [exact Hz | split; [exact He |]]].
  apply (tiles_on_edge_yields_nothing (Int 0) (Int (-50)) (Int 0) (Int 50)
           1 1 bbox100 H Hz He).
Defined.
